(** * seajobhub: the vacancy scan of [main.py]

    A shallow embedding of the processed-id table, the topic classifier
    and the scan loop of [main.py], with the properties of the design
    document stated over them.

    Texts are strings over the code points 0..255; on that range
    [str.strip], [str.lower], [str.split] and [in] are modelled exactly as
    Python defines them.  Integers are unbounded, as in Python.

    The network, the formatting service and the message channel are
    collaborators that may fail at every call.  The storage engine is
    taken to execute each statement as SQL defines it: faults of the
    engine itself (an unwritable or locked file) are not part of the
    model.  The HTML parser is taken to accept every page it is given:
    it finds the block and the heading or it does not. *)

From Stdlib Require Import ZArith List String Ascii Bool Lia.
From Stdlib Require Import DecimalString DecimalPos DecimalZ.
Import ListNotations.
Open Scope string_scope.
Open Scope list_scope.
Open Scope Z_scope.

(** ** Python string operations *)

Module PyStr.

(** [str.isspace] on one character: TAB..CR, FS..US, SPACE, NEL, NBSP. *)
Definition isspace (c : ascii) : bool :=
  let n := N_of_ascii c in
  ((9 <=? n) && (n <=? 13) || (28 <=? n) && (n <=? 32)
   || (n =? 133) || (n =? 160))%N.

(** [str.lower] on one character: A..Z and the upper-case letters of the
    Latin-1 block (all of 192..222 but the multiplication sign 215). *)
Definition lower_char (c : ascii) : ascii :=
  let n := N_of_ascii c in
  if ((65 <=? n) && (n <=? 90)
      || (192 <=? n) && (n <=? 222) && negb (n =? 215))%N
  then ascii_of_N (n + 32) else c.

Fixpoint lower (s : string) : string :=
  match s with
  | EmptyString => EmptyString
  | String c s' => String (lower_char c) (lower s')
  end.

Fixpoint lstrip (s : string) : string :=
  match s with
  | EmptyString => EmptyString
  | String c s' => if isspace c then lstrip s' else s
  end.

Fixpoint rstrip (s : string) : string :=
  match s with
  | EmptyString => EmptyString
  | String c s' =>
      match rstrip s' with
      | EmptyString => if isspace c then EmptyString else String c EmptyString
      | r => String c r
      end
  end.

(** [s.strip()] *)
Definition strip (s : string) : string := rstrip (lstrip s).

Definition newline : ascii := ascii_of_N 10.

(** The text before the first newline, and what follows it, if any. *)
Fixpoint break_line (s : string) : string * option string :=
  match s with
  | EmptyString => (EmptyString, None)
  | String c s' =>
      if Ascii.eqb c newline then (EmptyString, Some s')
      else let '(h, t) := break_line s' in (String c h, t)
  end.

(** [s.split("\n", 1)]: a Python list of one or two strings. *)
Definition split_newline_1 (s : string) : list string :=
  match break_line s with
  | (h, None) => [h]
  | (h, Some t) => [h; t]
  end.

(** [l[0]]; [None] stands for [IndexError]. *)
Definition getitem0 {A : Type} (l : list A) : option A := hd_error l.

(** [kw in s]: [kw] occurs in [s] as a substring. *)
Fixpoint contains (kw s : string) : bool :=
  String.prefix kw s ||
  match s with
  | EmptyString => false
  | String _ s' => contains kw s'
  end.

(** [not s] for a string: it is empty. *)
Definition is_empty (s : string) : bool :=
  match s with EmptyString => true | _ => false end.

(** [str(n)] for an integer. *)
Definition str (n : Z) : string := NilZero.string_of_int (Z.to_int n).

End PyStr.

(** ** The topic table and the classifier *)

(** A [dict] literal iterates in the order it is written. *)
Definition TOPIC_ID_MAPPING : list (string * Z) :=
  [ ("chief officer", 36);
    ("master", 2);
    ("2nd officer", 44);
    ("3rd officer", 50);
    ("chief engineer", 54);
    ("2nd engineer", 58);
    ("3rd engineer", 62);
    ("4th engineer", 66);
    ("electrical engineer", 70);
    ("bosun", 74);
    ("able seaman", 78);
    ("ordinary seaman", 82);
    ("fitter", 86);
    ("motorman", 90);
    ("wiper", 94);
    ("cook", 98);
    ("steward", 102) ].

(** The [for keyword, topic_id in ....items()] loop of [choose_topic],
    with its early [return topic_id] and the [return 0] after it. *)
Fixpoint match_topic (items : list (string * Z)) (lower_line : string) : Z :=
  match items with
  | [] => 0
  | (keyword, topic_id) :: rest =>
      if PyStr.contains keyword lower_line then topic_id
      else match_topic rest lower_line
  end.

(** [choose_topic]; [None] stands for an exception leaving the function
    (the only operation that can raise is the index [[0]]). *)
Definition choose_topic (formatted_text : string) : option Z :=
  match PyStr.getitem0 (PyStr.split_newline_1 (PyStr.strip formatted_text)) with
  | None => None
  | Some piece =>
      let first_line := PyStr.strip piece in
      let lower_line := PyStr.lower first_line in
      Some (match_topic TOPIC_ID_MAPPING lower_line)
  end.

(** ** The table [processed_vacancies] *)

(** A row, as the statements of the program determine it: the vacancy id
    and the time of the insert ([DEFAULT CURRENT_TIMESTAMP]).  The
    surrogate key [id] and the sequence it is drawn from are kept by the
    storage engine, and no statement of the program reads them. *)
Record row : Type := mk_row { vacancy_id : Z; processed_at : Z }.

Definition table : Type := list row.

Definition has_vacancy (db : table) (x : Z) : bool :=
  existsb (fun r => vacancy_id r =? x) db.

(** The membership test of the design document; the program itself never
    asks it, the [UNIQUE] check of an insert does. *)
Definition is_processed (db : table) (x : Z) : bool := has_vacancy db x.

(** [SELECT MAX(vacancy_id)]: [None] is SQL's NULL on an empty table. *)
Fixpoint select_max (db : table) : option Z :=
  match db with
  | [] => None
  | r :: rest =>
      match select_max rest with
      | None => Some (vacancy_id r)
      | Some m => Some (Z.max (vacancy_id r) m)
      end
  end.

(** The id the scan resumes after when the table is empty. *)
Definition fallback_last_id : Z := 308420.

Definition get_last_processed_id (db : table) : Z :=
  match select_max db with
  | Some m => m
  | None => fallback_last_id
  end.

(** Conflict clauses of an [INSERT]. *)
Inductive on_conflict : Type := OrAbort | OrIgnore.

Inductive sql_error : Type := IntegrityError.

(** [INSERT <clause> INTO processed_vacancies (vacancy_id) VALUES (x)]
    under the constraint [vacancy_id ... UNIQUE]. *)
Definition sql_insert (c : on_conflict) (now x : Z) (db : table)
  : sql_error + table :=
  if has_vacancy db x then
    match c with
    | OrAbort => inl IntegrityError
    | OrIgnore => inr db
    end
  else inr (db ++ [mk_row x now]).

(** What [save_processed_id] prints. *)
Inductive save_report : Type :=
  | SavedId (x : Z)
  | ErrorSaving (x : Z) (e : sql_error).

(** [save_processed_id]: the insert and commit inside [try], the
    [except] branch that only reports. *)
Definition save_processed_id (now x : Z) (db : table) : table * save_report :=
  match sql_insert OrIgnore now x db with
  | inr db' => (db', SavedId x)
  | inl e => (db, ErrorSaving x e)
  end.

Definition unique_ids (db : table) : Prop := NoDup (map vacancy_id db).

(** ** The collaborators of the scan *)

(** An HTTP response, as far as the program looks at it. *)
Record response : Type := mk_response { status_code : Z; text : string }.

(** What a call of [format_vacancy_deepseek] does: it raises, or it
    returns the text. *)
Inductive format_result : Type :=
  | FormatRaised
  | FormatReturned (formatted : string).

(** The outside of the program.  [World] is the state of everything the
    program talks to; every call that reaches outside takes the world and
    gives the next one back.
    - [requests_get url]: [None] when [requests.get] raises;
    - [soup_find_content html]: the [div] of class [vacancy-full-content]
      of the parsed page, [tag_find_h1] its first [h1], [tag_get_text sep]
      the text of a tag ([get_text(separator=sep, strip=True)]);
    - [deepseek_post key raw]: the POST of the chat request whose prompt
      is the fixed template of [format_vacancy_deepseek] filled with
      [raw], [None] when [requests.post] raises;
    - [response_content body]: the field
      [response.json()["choices"][0]["message"]["content"]], [None] when
      decoding or a lookup raises;
    - [send_message chat text thread]: [false] when the call raises;
    - [current_timestamp]: the clock of the storage engine. *)
Record collaborators (World Tag : Type) : Type := mk_collaborators {
  VACANCY_BASE_URL : string;
  TARGET_CHAT_ID : option string;
  requests_get : string -> World -> option response * World;
  soup_find_content : string -> option Tag;
  tag_find_h1 : Tag -> option Tag;
  tag_get_text : string -> Tag -> string;
  DEEPSEEK_API_KEY : option string;
  deepseek_post : option string -> string -> World -> option response * World;
  response_content : string -> option string;
  send_message : option string -> string -> Z -> World -> bool * World;
  current_timestamp : World -> Z
}.

Arguments VACANCY_BASE_URL {World Tag} _.
Arguments TARGET_CHAT_ID {World Tag} _.
Arguments requests_get {World Tag} _ _ _.
Arguments soup_find_content {World Tag} _ _.
Arguments tag_find_h1 {World Tag} _ _.
Arguments tag_get_text {World Tag} _ _ _.
Arguments DEEPSEEK_API_KEY {World Tag} _.
Arguments deepseek_post {World Tag} _ _ _ _.
Arguments response_content {World Tag} _ _.
Arguments send_message {World Tag} _ _ _ _ _.
Arguments current_timestamp {World Tag} _ _.

(** What the scan prints, one constructor per message that matters here. *)
Inductive event : Type :=
  | Checking (id : Z)
  | NotFound (id : Z)
  | EmptyResult (id : Z)
  | FormatError (id : Z)
  | NoTopic (id : Z)
  | Send (id topic : Z) (body : string) (ok : bool)
  | Save (r : save_report)
  | Complete (n : Z).

(** Python values a function can hand back: [None], an integer, or the
    mapping [{attempted, delivered}] a counting scan would return. *)
Inductive py_value : Type :=
  | PyNone
  | PyInt (n : Z)
  | PyCounts (attempted delivered : Z).

(** How a run of a loop ends: the model ran out of steps, an exception
    left the function, or it returned. *)
Inductive run (A : Type) : Type :=
  | OutOfFuel
  | Raises
  | Returns (a : A).

Arguments OutOfFuel {A}.
Arguments Raises {A}.
Arguments Returns {A} a.

Definition nl : string := String PyStr.newline EmptyString.

Section Scan.

Variables World Tag : Type.
Variable E : collaborators World Tag.

(** [parse_vacancy_page]: every early [return None], then the text. *)
Definition parse_vacancy_page (vacancy_id : Z) (w : World)
  : option string * World :=
  let url := (VACANCY_BASE_URL E ++ PyStr.str vacancy_id)%string in
  match requests_get E url w with
  | (None, w') => (None, w')
  | (Some resp, w') =>
      if negb (status_code resp =? 200) then (None, w')
      else
        match soup_find_content E (text resp) with
        | None => (None, w')
        | Some main_block =>
            match tag_find_h1 E main_block with
            | None => (None, w')
            | Some h1 =>
                let title := tag_get_text E "" h1 in
                let raw_text := tag_get_text E nl main_block in
                let combined :=
                  (("Job Title: " ++ title ++ nl) ++ raw_text)%string in
                (Some combined, w')
            end
        end
  end.

(** [format_vacancy_deepseek]: the request, then the stripped content
    of a 200 response; every other way out raises. *)
Definition format_vacancy_deepseek (raw_text : string) (w : World)
  : format_result * World :=
  match deepseek_post E (DEEPSEEK_API_KEY E) raw_text w with
  | (None, w') => (FormatRaised, w')
  | (Some resp, w') =>
      if status_code resp =? 200 then
        match response_content E (text resp) with
        | None => (FormatRaised, w')
        | Some content => (FormatReturned (PyStr.strip content), w')
        end
      else (FormatRaised, w')
  end.

(** The variables of [check_new_vacancies], the table, the world and
    what has been printed so far. *)
Record scan_state : Type := mk_state {
  current_id : Z;
  new_count : Z;
  missing_count : Z;
  db : table;
  world : World;
  log : list event
}.

Definition max_missing : Z := 10.

(** [save_processed_id(current_id); current_id += 1], with
    [new_count += 1] before it on the delivery path; the miss counter is
    the one already reset by the [else] of the fetch test. *)
Definition save_and_advance (counted : bool) (st : scan_state) (w : World)
    (printed : list event) : scan_state :=
  let '(db', r) :=
    save_processed_id (current_timestamp E w) (current_id st) (db st) in
  {| current_id := current_id st + 1;
     new_count := if counted then new_count st + 1 else new_count st;
     missing_count := 0;
     db := db';
     world := w;
     log := log st ++ printed ++ [Save r] |}.

(** One pass through the body of the [while] loop.  [None]: an exception
    that nothing catches leaves the loop. *)
Definition loop_body (st : scan_state) : option scan_state :=
  let id := current_id st in
  match parse_vacancy_page id (world st) with
  | (None, w1) =>
      Some {| current_id := id + 1;
              new_count := new_count st;
              missing_count := missing_count st + 1;
              db := db st;
              world := w1;
              log := log st ++ [Checking id; NotFound id] |}
  | (Some raw_vacancy, w1) =>
      match format_vacancy_deepseek raw_vacancy w1 with
      | (FormatRaised, w2) =>
          Some (save_and_advance false st w2 [Checking id; FormatError id])
      | (FormatReturned formatted_vacancy, w2) =>
          if PyStr.is_empty formatted_vacancy then
            Some (save_and_advance false st w2 [Checking id; EmptyResult id])
          else
            match choose_topic formatted_vacancy with
            | None => None
            | Some topic_id =>
                if topic_id =? 0 then
                  Some (save_and_advance false st w2 [Checking id; NoTopic id])
                else
                  let '(ok, w3) :=
                    send_message E (TARGET_CHAT_ID E) formatted_vacancy
                                 topic_id w2 in
                  Some (save_and_advance true st w3
                          [Checking id; Send id topic_id formatted_vacancy ok])
            end
      end
  end.

(** The [while missing_count < max_missing] loop, for at most [fuel]
    passes. *)
Fixpoint check_loop (fuel : nat) (st : scan_state) : run scan_state :=
  match fuel with
  | O => OutOfFuel
  | S fuel' =>
      if missing_count st <? max_missing then
        match loop_body st with
        | None => Raises
        | Some st' => check_loop fuel' st'
        end
      else Returns st
  end.

(** The state the loop starts in. *)
Definition initial_state (d : table) (w : World) : scan_state :=
  let last_id := get_last_processed_id d in
  {| current_id := last_id + 1;
     new_count := 0;
     missing_count := 0;
     db := d;
     world := w;
     log := [] |}.

(** [check_new_vacancies]: the loop, the closing message, and the value
    of a function that ends without a [return] statement. *)
Definition check_new_vacancies (fuel : nat) (d : table) (w : World)
  : run (py_value * scan_state) :=
  match check_loop fuel (initial_state d w) with
  | OutOfFuel => OutOfFuel
  | Raises => Raises
  | Returns st =>
      Returns (PyNone,
               {| current_id := current_id st;
                  new_count := new_count st;
                  missing_count := missing_count st;
                  db := db st;
                  world := world st;
                  log := log st ++ [Complete (new_count st)] |})
  end.

(** One pass of the loop as a relation, and any number of passes. *)
Definition step (st st' : scan_state) : Prop :=
  missing_count st < max_missing /\ loop_body st = Some st'.

Inductive steps : scan_state -> scan_state -> Prop :=
  | steps_refl : forall st, steps st st
  | steps_next : forall st st' st'',
      steps st st' -> step st' st'' -> steps st st''.

End Scan.

Arguments current_id {World} _.
Arguments new_count {World} _.
Arguments missing_count {World} _.
Arguments db {World} _.
Arguments world {World} _.
Arguments log {World} _.
Arguments mk_state {World} _ _ _ _ _ _.
Arguments parse_vacancy_page {World Tag} E vacancy_id w.
Arguments format_vacancy_deepseek {World Tag} E raw_text w.
Arguments save_and_advance {World Tag} E counted st w printed.
Arguments loop_body {World Tag} E st.
Arguments check_loop {World Tag} E fuel st.
Arguments initial_state {World} d w.
Arguments check_new_vacancies {World Tag} E fuel d w.
Arguments step {World Tag} E st st'.
Arguments steps {World Tag} E _ _.

(** ** The classifier in the words of the design document *)

(** The first line of a text: what stands before its first newline. *)
Definition first_line (s : string) : string := fst (PyStr.break_line s).

(** The destination of the first keyword of [topics], in their order,
    that the lower-cased first line contains; [None] when there is none. *)
Definition classify (topics : list (string * Z)) (formatted : string)
  : option Z :=
  let line := PyStr.lower (first_line formatted) in
  option_map snd (find (fun kv => PyStr.contains (fst kv) line) topics).

(** The integer [choose_topic] hands back for a classification. *)
Definition topic_or_zero (r : option Z) : Z :=
  match r with Some d => d | None => 0 end.

(** The line [choose_topic] matches keywords against. *)
Definition lower_line_of (formatted_text : string) : string :=
  PyStr.lower (PyStr.strip (first_line (PyStr.strip formatted_text))).

(** A keyword that neither starts nor ends with white space. *)
Fixpoint last_char (s : string) : option ascii :=
  match s with
  | EmptyString => None
  | String c EmptyString => Some c
  | String _ s' => last_char s'
  end.

Definition tight (kw : string) : bool :=
  match kw, last_char kw with
  | String c _, Some d => negb (PyStr.isspace c) && negb (PyStr.isspace d)
  | _, _ => false
  end.

(** ** Observations on what a scan printed *)

(** The id an event is about. *)
Definition event_id (e : event) : option Z :=
  match e with
  | Checking id | NotFound id | EmptyResult id | FormatError id
  | NoTopic id | Send id _ _ _ => Some id
  | Save (SavedId id) | Save (ErrorSaving id _) => Some id
  | Complete _ => None
  end.

(** The event is about [x]. *)
Definition mentions (x : Z) (e : event) : bool :=
  match event_id e with Some y => y =? x | None => false end.

(** The event is a call of [bot.send_message] for vacancy [x]. *)
Definition delivers (x : Z) (e : event) : bool :=
  match e with Send id _ _ _ => id =? x | _ => false end.

Definition is_send (e : event) : bool :=
  match e with Send _ _ _ _ => true | _ => false end.

Definition is_save (e : event) : bool :=
  match e with Save _ => true | _ => false end.

(** How many calls of [bot.send_message] a log records. *)
Definition sends (l : list event) : Z :=
  Z.of_nat (List.length (filter is_send l)).

(** The value is the mapping of counts the design document promises. *)
Definition returns_counts (v : py_value) : Prop :=
  exists attempted delivered, v = PyCounts attempted delivered.

(** Vacancy [x] is settled in state [st']: for the rest of this scan it
    stays in the table and nothing more is printed about it, and a scan
    that starts from any table holding [x], against any outside at all,
    prints nothing about it, so it is neither fetched nor sent again. *)
Definition settled {World Tag : Type} (E : collaborators World Tag)
    (x : Z) (st' : scan_state World) : Prop :=
  (forall st'', steps E st' st'' ->
     is_processed (db st'') x = true
     /\ exists evs, log st'' = log st' ++ evs
                    /\ Forall (fun e => mentions x e = false) evs)
  /\ (forall (World2 Tag2 : Type) (E2 : collaborators World2 Tag2)
             (d2 : table) (w2 : World2) (st2 : scan_state World2),
        is_processed d2 x = true ->
        steps E2 (initial_state d2 w2) st2 ->
        Forall (fun e => mentions x e = false) (log st2)).

(** The scan returns the counts the design document promises. *)
Definition scan_returns_counts {World Tag : Type}
    (E : collaborators World Tag) (fuel : nat) (d : table) (w : World)
  : Prop :=
  exists v st,
    check_new_vacancies E fuel d w = Returns (v, st) /\ returns_counts v.

(** On an empty table the scan fetches the fallback id itself first, and
    ends with that id as the highest one of the table. *)
Definition scan_starts_at_fallback {World Tag : Type}
    (E : collaborators World Tag) (fuel : nat) (w : World) : Prop :=
  exists v st,
    check_new_vacancies E fuel [] w = Returns (v, st)
    /\ hd_error (log st) = Some (Checking fallback_last_id)
    /\ get_last_processed_id (db st) = fallback_last_id
    /\ is_processed (db st) fallback_last_id = true.

(** ** A simulated outside, for concrete runs *)

Module Sim.

Definition base_url : string := "https://ukrcrewing.com.ua/en/vacancy/".

Definition url_of (x : Z) : string := (base_url ++ PyStr.str x)%string.

Definition serves (ids : list Z) (url : string) : bool :=
  existsb (fun x => String.eqb url (url_of x)) ids.

(** A site that has pages for the ids of [present], whose connection
    breaks for the ids of [broken], a formatting service that answers
    [fmt], and a channel that accepts messages or not; the world is a
    clock. *)
Definition site (present broken : list Z) (fmt : string -> option response)
    (accepts : bool) : collaborators Z string :=
  {| VACANCY_BASE_URL := base_url;
     TARGET_CHAT_ID := Some "-1002629029765";
     requests_get := fun url w =>
       if serves broken url then (None, w + 1)
       else if serves present url
            then (Some (mk_response 200 "Master"), w + 1)
            else (Some (mk_response 404 ""), w + 1);
     soup_find_content := fun html => Some html;
     tag_find_h1 := fun t => Some t;
     tag_get_text := fun _ t => t;
     DEEPSEEK_API_KEY := Some "sk-test";
     deepseek_post := fun _ raw w => (fmt raw, w + 1);
     response_content := fun body => Some body;
     send_message := fun _ _ _ w => (accepts, w + 1);
     current_timestamp := fun w => w |}.

(** A site that has a page for every id. *)
Definition endless_site (fmt : string -> option response) (accepts : bool)
  : collaborators Z string :=
  {| VACANCY_BASE_URL := base_url;
     TARGET_CHAT_ID := Some "-1002629029765";
     requests_get := fun url w => (Some (mk_response 200 "Cook"), w + 1);
     soup_find_content := fun html => Some html;
     tag_find_h1 := fun t => Some t;
     tag_get_text := fun _ t => t;
     DEEPSEEK_API_KEY := Some "sk-test";
     deepseek_post := fun _ raw w => (fmt raw, w + 1);
     response_content := fun body => Some body;
     send_message := fun _ _ _ w => (accepts, w + 1);
     current_timestamp := fun w => w |}.

Definition master_text : string := ("Master on Tanker" ++ nl ++ "...")%string.

(** The service answers with the text of the scenario, with blanks
    only, or with a server error. *)
Definition fmt_master (raw : string) : option response :=
  Some (mk_response 200 (master_text ++ nl)).

Definition fmt_empty (raw : string) : option response :=
  Some (mk_response 200 "  ").

Definition fmt_fails (raw : string) : option response :=
  Some (mk_response 500 "Internal Server Error").

End Sim.

(** The ids for which a log records a call of [bot.send_message], in the
    order of the calls. *)
Definition sent_ids (l : list event) : list Z :=
  flat_map (fun e => match e with Send id _ _ _ => [id] | _ => [] end) l.

(** What a pass prints between [Checking] and [Save] when the page of
    [id] was found. *)
Definition found_outcome (id : Z) (ev : event) : Prop :=
  ev = FormatError id \/ ev = EmptyResult id \/ ev = NoTopic id
  \/ exists topic_id body ok, ev = Send id topic_id body ok /\ topic_id <> 0.

(** A state is fresh when nothing is printed yet, no miss is counted and
    the table holds no id from the cursor on; the state a scan starts in
    is. *)
Definition fresh {World : Type} (st0 : scan_state World) : Prop :=
  log st0 = []
  /\ missing_count st0 = 0
  /\ forall y, current_id st0 <= y -> has_vacancy (db st0) y = false.



(** ** Text lemmas *)

Module PyStrFacts.
Import PyStr.

Lemma app_assoc_s (a b c : string) : ((a ++ b) ++ c = a ++ (b ++ c))%string.
Proof. induction a as [|x a IH]; simpl; [reflexivity | now rewrite IH]. Qed.

Lemma prefix_app (kw s : string) :
  String.prefix kw s = true <-> exists b, s = (kw ++ b)%string.
Proof.
  revert s; induction kw as [|c kw IH]; intros s.
  - split; [intros _; now exists s | destruct s; reflexivity].
  - destruct s as [|d s]; simpl.
    + split; [discriminate | intros [b Hb]; discriminate].
    + destruct (Ascii.ascii_dec c d) as [Heq|Hn].
      * subst d. rewrite IH. split; intros [b Hb]; exists b; congruence.
      * split; [discriminate | intros [b Hb]; congruence].
Qed.

(** [contains] is the substring relation. *)
Lemma contains_spec (kw s : string) :
  contains kw s = true <-> exists a b, s = (a ++ kw ++ b)%string.
Proof.
  induction s as [|c s IH]; cbn [contains].
  - rewrite orb_false_r, prefix_app. split.
    + intros [b Hb]. now exists "", b.
    + intros [a [b Hab]]. destruct a; [now exists b | discriminate].
  - rewrite orb_true_iff, IH, prefix_app. split.
    + intros [[b Hb] | [a [b Hab]]].
      * now exists "", b.
      * exists (String c a), b. simpl. now rewrite Hab.
    + intros [a [b Hab]]. destruct a as [|x a]; simpl in Hab.
      * left. now exists b.
      * right. exists a, b. congruence.
Qed.

Lemma lstrip_suffix (s : string) : exists a, s = (a ++ lstrip s)%string.
Proof.
  induction s as [|c s [a Ha]]; simpl.
  - now exists "".
  - destruct (isspace c).
    + exists (String c a). simpl. now rewrite <- Ha.
    + now exists "".
Qed.

Lemma rstrip_prefix (s : string) : exists b, s = (rstrip s ++ b)%string.
Proof.
  induction s as [|c s [b Hb]]; simpl.
  - now exists "".
  - destruct (rstrip s) as [|d r] eqn:Hr.
    + destruct (isspace c).
      * now exists (String c s).
      * exists b. simpl in *. now rewrite <- Hb.
    + exists b. simpl in *. now rewrite <- Hb.
Qed.

Lemma rstrip_cons_keep (c : ascii) (s : string) :
  isspace c = false -> rstrip (String c s) = String c (rstrip s).
Proof. intros H. simpl. rewrite H. now destruct (rstrip s). Qed.

Lemma rstrip_app_keep (a b : string) :
  rstrip b <> "" -> rstrip (a ++ b) = (a ++ rstrip b)%string.
Proof.
  intros Hb. induction a as [|c a IH]; simpl; [reflexivity|].
  rewrite IH. destruct (a ++ rstrip b)%string eqn:Hab; [|reflexivity].
  destruct a; simpl in Hab; [contradiction | discriminate].
Qed.

Lemma lstrip_keeps (a : string) (c : ascii) (x : string) :
  isspace c = false ->
  exists a', lstrip (a ++ String c x) = (a' ++ String c x)%string.
Proof.
  intros Hc. induction a as [|d a [a' IH]]; simpl.
  - rewrite Hc. now exists "".
  - destruct (isspace d); [now exists a' | now exists (String d a)].
Qed.

Lemma last_char_split (kw : string) (d : ascii) :
  last_char kw = Some d -> exists k, kw = (k ++ String d "")%string.
Proof.
  induction kw as [|c kw IH]; simpl; [discriminate|].
  destruct kw as [|c' kw'].
  - intros [= ->]. now exists "".
  - intros H. destruct (IH H) as [k Hk]. exists (String c k).
    simpl. now rewrite <- Hk.
Qed.

Lemma rstrip_keeps (k : string) (d : ascii) (b : string) :
  isspace d = false ->
  rstrip (k ++ String d b) = (k ++ String d (rstrip b))%string.
Proof.
  intros Hd. rewrite rstrip_app_keep; rewrite rstrip_cons_keep by assumption;
    [reflexivity | discriminate].
Qed.

(** Stripping a text neither hides nor creates an occurrence of a
    keyword whose ends are not white space. *)
Lemma contains_strip (kw s : string) :
  tight kw = true -> contains kw (strip s) = contains kw s.
Proof.
  intros Ht. apply eq_true_iff_eq. rewrite !contains_spec. unfold strip. split.
  - intros [a [b Hab]].
    destruct (lstrip_suffix s) as [p Hp].
    destruct (rstrip_prefix (lstrip s)) as [q Hq].
    exists (p ++ a)%string, (b ++ q)%string.
    rewrite Hp at 1. rewrite Hq at 1. rewrite Hab.
    now rewrite !app_assoc_s.
  - intros [a [b Hab]]. subst s.
    unfold tight in Ht. destruct kw as [|c kw']; [discriminate|].
    destruct (last_char (String c kw')) as [d|] eqn:Hl; [|discriminate].
    apply andb_true_iff in Ht as [Hc Hd].
    apply negb_true_iff in Hc. apply negb_true_iff in Hd.
    destruct (lstrip_keeps a c (kw' ++ b) Hc) as [a' Ha'].
    change (String c kw' ++ b)%string with (String c (kw' ++ b)).
    rewrite Ha'.
    destruct (last_char_split _ _ Hl) as [k Hk].
    change (String c (kw' ++ b)) with (String c kw' ++ b)%string.
    rewrite Hk. rewrite (app_assoc_s k). simpl.
    rewrite <- (app_assoc_s a' k).
    rewrite rstrip_keeps by assumption.
    exists a', (rstrip b). now rewrite !app_assoc_s.
Qed.

Lemma isspace_lower_char (c : ascii) : isspace (lower_char c) = isspace c.
Proof.
  destruct c as [[] [] [] [] [] [] [] []]; reflexivity.
Qed.

Lemma lower_lstrip (s : string) : lower (lstrip s) = lstrip (lower s).
Proof.
  induction s as [|c s IH]; simpl; [reflexivity|].
  rewrite isspace_lower_char. now destruct (isspace c).
Qed.

Lemma lower_rstrip (s : string) : lower (rstrip s) = rstrip (lower s).
Proof.
  induction s as [|c s IH]; simpl; [reflexivity|].
  rewrite <- IH, isspace_lower_char.
  destruct (rstrip s); simpl; [now destruct (isspace c) | reflexivity].
Qed.

Lemma lower_strip (s : string) : lower (strip s) = strip (lower s).
Proof. unfold strip. now rewrite lower_rstrip, lower_lstrip. Qed.

Lemma lower_app (a b : string) :
  lower (a ++ b) = (lower a ++ lower b)%string.
Proof. induction a as [|c a IH]; simpl; [reflexivity | now rewrite IH]. Qed.

Lemma rstrip_idempotent (s : string) : rstrip (rstrip s) = rstrip s.
Proof.
  induction s as [|c s IH]; simpl; [reflexivity|].
  destruct (rstrip s) as [|d r] eqn:Hr.
  - destruct (isspace c) eqn:Hc; simpl; [reflexivity | now rewrite Hc].
  - cbn [rstrip]. cbn [rstrip] in IH. rewrite IH. reflexivity.
Qed.

Lemma lstrip_head_cases (s : string) :
  lstrip s = "" \/ exists c r, lstrip s = String c r /\ isspace c = false.
Proof.
  induction s as [|c s IH]; simpl; [now left|].
  destruct (isspace c) eqn:Hc; [exact IH | right; now exists c, s].
Qed.

(** A stripped text has no white space left to strip. *)
Lemma strip_idempotent (s : string) : strip (strip s) = strip s.
Proof.
  unfold strip. destruct (lstrip_head_cases s) as [-> | [c [r [-> Hc]]]];
    [reflexivity|].
  rewrite (rstrip_cons_keep c r Hc). cbn [lstrip]. rewrite Hc.
  rewrite <- (rstrip_cons_keep c r Hc). apply rstrip_idempotent.
Qed.

(** [split("\n", 1)] never gives the empty list, so [[0]] is defined. *)
Lemma getitem0_split (s : string) :
  getitem0 (split_newline_1 s) = Some (fst (break_line s)).
Proof.
  unfold split_newline_1. destruct (break_line s) as [h [t|]]; reflexivity.
Qed.

End PyStrFacts.

(** ** The classifier *)

Section Classifier.
Import PyStr PyStrFacts.

Lemma topic_keywords_tight :
  forallb (fun kv => tight (fst kv)) TOPIC_ID_MAPPING = true.
Proof. reflexivity. Qed.

(** The loop of [choose_topic] finds what [find] finds. *)
Lemma match_topic_find (items : list (string * Z)) (line : string) :
  match_topic items line =
  topic_or_zero
    (option_map snd (find (fun kv => contains (fst kv) line) items)).
Proof.
  induction items as [|[kw d] items IH]; simpl; [reflexivity|].
  destruct (contains kw line); [reflexivity | exact IH].
Qed.

Lemma find_ext_in {A : Type} (f g : A -> bool) (l : list A) :
  (forall a, In a l -> f a = g a) -> find f l = find g l.
Proof.
  induction l as [|a l IH]; intros H; simpl; [reflexivity|].
  rewrite (H a) by now left. destruct (g a); [reflexivity|].
  apply IH. intros b Hb. apply H. now right.
Qed.

Lemma choose_topic_value (formatted_text : string) :
  choose_topic formatted_text =
  Some (match_topic TOPIC_ID_MAPPING (lower_line_of formatted_text)).
Proof.
  unfold choose_topic. now rewrite getitem0_split.
Qed.

(** Matching against the stripped first line or against the first line
    as it stands gives the same keyword. *)
Lemma match_topic_strip (line : string) :
  match_topic TOPIC_ID_MAPPING (lower (strip line)) =
  match_topic TOPIC_ID_MAPPING (lower line).
Proof.
  rewrite !match_topic_find. f_equal. f_equal.
  apply find_ext_in. intros [kw d] Hin. simpl.
  rewrite lower_strip. apply contains_strip.
  pose proof topic_keywords_tight as Ht.
  rewrite forallb_forall in Ht. exact (Ht _ Hin).
Qed.

Lemma match_topic_range (items : list (string * Z)) (line : string) :
  (match_topic items line = 0 /\
   forall kw d, In (kw, d) items -> d <> 0 -> contains kw line = false)
  \/ exists kw, In (kw, match_topic items line) items /\
                contains kw line = true.
Proof.
  induction items as [|[kw d] items IH]; simpl.
  - left. split; [reflexivity | intros ? ? []].
  - destruct (contains kw line) eqn:Hc.
    + right. exists kw. split; [now left | exact Hc].
    + destruct IH as [[H0 Hall] | [kw' [Hin Hc']]].
      * left. split; [exact H0|]. intros kw' d' [Heq | Hin] Hd.
        -- now inversion Heq; subst.
        -- now apply (Hall kw' d').
      * right. exists kw'. split; [now right | exact Hc'].
Qed.

Lemma topic_ids_at_least_2 (kw : string) (d : Z) :
  In (kw, d) TOPIC_ID_MAPPING -> 2 <= d.
Proof.
  unfold TOPIC_ID_MAPPING. simpl.
  intros H. repeat (destruct H as [H | H]; [inversion H; lia|]). destruct H.
Qed.

(** A text that opens with a phrase keeps it at the head of the line
    that is matched, when the phrase has no newline and its ends are not
    white space. *)
Lemma lstrip_head (c : ascii) (s : string) :
  isspace c = false -> lstrip (String c s) = String c s.
Proof. intros H. simpl. now rewrite H. Qed.

Lemma break_line_app (p rest : string) :
  fst (break_line p) = p -> snd (break_line p) = None ->
  fst (break_line (p ++ rest)) = (p ++ fst (break_line rest))%string.
Proof.
  induction p as [|c p IH]; simpl; [reflexivity|].
  destruct (Ascii.eqb c newline); [discriminate|].
  destruct (break_line p) as [h t] eqn:Hb. simpl. intros [= Hh] Ht.
  destruct (break_line (p ++ rest)) as [h' t'] eqn:Hb'. simpl.
  f_equal. specialize (IH Hh Ht). simpl in IH. exact IH.
Qed.

Lemma strip_head (p rest : string) :
  tight p = true -> strip (p ++ rest) = (p ++ rstrip rest)%string.
Proof.
  intros Ht. unfold tight in Ht. destruct p as [|c p']; [discriminate|].
  destruct (last_char (String c p')) as [d|] eqn:Hl; [|discriminate].
  apply andb_true_iff in Ht as [Hc Hd].
  apply negb_true_iff in Hc. apply negb_true_iff in Hd.
  unfold strip.
  change (String c p' ++ rest)%string with (String c (p' ++ rest)).
  rewrite lstrip_head by assumption.
  change (String c (p' ++ rest)) with (String c p' ++ rest)%string.
  destruct (last_char_split _ _ Hl) as [k Hk]. rewrite Hk.
  rewrite !app_assoc_s. simpl. now apply rstrip_keeps.
Qed.

Lemma lower_line_of_head (p rest : string) :
  tight p = true -> break_line p = (p, None) ->
  exists z, lower_line_of (p ++ rest) = (lower p ++ z)%string.
Proof.
  intros Ht Hb. unfold lower_line_of, first_line.
  rewrite strip_head by assumption.
  rewrite break_line_app by (rewrite Hb; reflexivity).
  rewrite strip_head by assumption.
  rewrite lower_app. eauto.
Qed.

End Classifier.

(** On a text without white space at its ends, as the formatter returns
    it, the line matched is the first line itself. *)
Lemma choose_topic_on_stripped (formatted_text : string) :
  PyStr.strip formatted_text = formatted_text ->
  choose_topic formatted_text =
  Some (topic_or_zero (classify TOPIC_ID_MAPPING formatted_text)).
Proof.
  intros H. rewrite choose_topic_value. unfold lower_line_of, classify.
  rewrite H. rewrite match_topic_strip. f_equal. apply match_topic_find.
Qed.

(** What [format_vacancy_deepseek] returns has no white space at its
    ends. *)
Lemma formatter_returns_stripped {World Tag : Type}
    (E : collaborators World Tag) (raw formatted : string) (w w' : World) :
  format_vacancy_deepseek E raw w = (FormatReturned formatted, w') ->
  PyStr.strip formatted = formatted.
Proof.
  unfold format_vacancy_deepseek.
  destruct (deepseek_post E (DEEPSEEK_API_KEY E) raw w) as [[resp|] w1];
    [|discriminate].
  destruct (status_code resp =? 200); [|discriminate].
  destruct (response_content E (text resp)) as [content|];
    [|discriminate].
  intros [= <- _]. apply PyStrFacts.strip_idempotent.
Qed.

(** C6. [choose_topic] classifies by the first line of the formatted
    text: for every text that [format_vacancy_deepseek] returns, and for
    every text without white space at its ends, it gives the destination
    of the first keyword of [TOPIC_ID_MAPPING], in the order of the
    table, that occurs in the lower-cased first line, and 0 when no
    keyword occurs.  On any other text it does the same after dropping
    the white space around the text.  Every text that begins with
    "Chief Officer on Bulk Carrier" goes to 36, the destination of
    "chief officer". *)
Theorem choose_topic_first_keyword :
  (forall (World Tag : Type) (E : collaborators World Tag)
          (raw formatted_text : string) (w w' : World),
     format_vacancy_deepseek E raw w = (FormatReturned formatted_text, w') ->
     choose_topic formatted_text =
     Some (topic_or_zero (classify TOPIC_ID_MAPPING formatted_text)))
  /\ (forall formatted_text,
        PyStr.strip formatted_text = formatted_text ->
        choose_topic formatted_text =
        Some (topic_or_zero (classify TOPIC_ID_MAPPING formatted_text)))
  /\ (forall formatted_text,
        choose_topic formatted_text =
        Some (topic_or_zero
                (classify TOPIC_ID_MAPPING (PyStr.strip formatted_text))))
  /\ (forall rest,
        choose_topic ("Chief Officer on Bulk Carrier" ++ rest) = Some 36)
  /\ In ("chief officer", 36) TOPIC_ID_MAPPING.
Proof.
  split; [|split; [exact choose_topic_on_stripped | split; [|split]]].
  - intros World Tag E raw t w w' H. apply choose_topic_on_stripped.
    exact (formatter_returns_stripped E raw t w w' H).
  - intros t. rewrite choose_topic_value. unfold lower_line_of, classify.
    rewrite match_topic_strip. f_equal. apply match_topic_find.
  - intros rest. rewrite choose_topic_value.
    destruct (lower_line_of_head "Chief Officer on Bulk Carrier" rest
                eq_refl eq_refl) as [z Hz].
    rewrite Hz. reflexivity.
  - now left.
Qed.

(** C6 on the text of the end-to-end scenario. *)
Lemma choose_topic_first_keyword_witness :
  choose_topic Sim.master_text
  = Some (topic_or_zero (classify TOPIC_ID_MAPPING Sim.master_text))
  /\ choose_topic Sim.master_text = Some 2.
Proof.
  split; [|reflexivity].
  apply (proj1 choose_topic_first_keyword Z string
           (Sim.site [308421] [] Sim.fmt_master true)
           "Job Title: Master" Sim.master_text 1 2).
  reflexivity.
Defined.

(** C10. [choose_topic] returns on every text, the empty one included;
    what it returns is 0 or a destination of [TOPIC_ID_MAPPING]; every
    destination of the table is at least 2, so 0 is returned exactly
    when no keyword occurs in the line that is matched. *)
Theorem choose_topic_total :
  (forall formatted_text,
     exists topic_id,
       choose_topic formatted_text = Some topic_id
       /\ (topic_id = 0 \/ exists kw, In (kw, topic_id) TOPIC_ID_MAPPING)
       /\ (topic_id = 0 <->
           forall kw d, In (kw, d) TOPIC_ID_MAPPING ->
             PyStr.contains kw (lower_line_of formatted_text) = false))
  /\ (forall kw d, In (kw, d) TOPIC_ID_MAPPING -> 2 <= d)
  /\ choose_topic "" = Some 0
  /\ choose_topic "no line break here" = Some 0.
Proof.
  split; [|split; [exact topic_ids_at_least_2 | split; reflexivity]].
  intros t. rewrite choose_topic_value.
  exists (match_topic TOPIC_ID_MAPPING (lower_line_of t)).
  split; [reflexivity|].
  destruct (match_topic_range TOPIC_ID_MAPPING (lower_line_of t))
    as [[H0 Hall] | [kw [Hin Hc]]].
  - split; [now left|]. split; [|intros _; exact H0].
    intros _ kw d Hin. apply (Hall kw d Hin).
    apply topic_ids_at_least_2 in Hin. lia.
  - split; [right; now exists kw|]. split.
    + intros Hz. rewrite Hz in Hin. apply topic_ids_at_least_2 in Hin. lia.
    + intros Hall. rewrite (Hall _ _ Hin) in Hc. discriminate.
Qed.

(** ** The table *)

Section Store.

Lemma has_vacancy_app (d : table) (r : row) (x : Z) :
  has_vacancy (d ++ [r]) x = has_vacancy d x || (vacancy_id r =? x).
Proof.
  unfold has_vacancy. rewrite existsb_app. simpl. now rewrite orb_false_r.
Qed.

Lemma has_vacancy_In (d : table) (x : Z) :
  has_vacancy d x = true <-> In x (map vacancy_id d).
Proof.
  unfold has_vacancy. rewrite existsb_exists, in_map_iff.
  split; intros [r [H1 H2]]; exists r.
  - apply Z.eqb_eq in H2. tauto.
  - split; [tauto | now apply Z.eqb_eq].
Qed.

(** An insert that ignores conflicts never fails. *)
Lemma sql_insert_ignore (now x : Z) (d : table) :
  sql_insert OrIgnore now x d =
  inr (if has_vacancy d x then d else d ++ [mk_row x now]).
Proof. unfold sql_insert. now destruct (has_vacancy d x). Qed.

Lemma save_processed_id_eq (now x : Z) (d : table) :
  save_processed_id now x d =
  (if has_vacancy d x then d else d ++ [mk_row x now], SavedId x).
Proof. unfold save_processed_id. now rewrite sql_insert_ignore. Qed.

Lemma save_processed_id_has (now x y : Z) (d : table) :
  has_vacancy (fst (save_processed_id now x d)) y =
  has_vacancy d y || (x =? y).
Proof.
  rewrite save_processed_id_eq. simpl.
  destruct (has_vacancy d x) eqn:Hx.
  - destruct (Z.eqb_spec x y) as [->|Hn].
    + now rewrite Hx.
    + now rewrite orb_false_r.
  - now rewrite has_vacancy_app.
Qed.

Lemma save_processed_id_unique (now x : Z) (d : table) :
  unique_ids d -> unique_ids (fst (save_processed_id now x d)).
Proof.
  unfold unique_ids. intros Hd. rewrite save_processed_id_eq. simpl.
  destruct (has_vacancy d x) eqn:Hx; [exact Hd|].
  rewrite map_app. simpl.
  assert (Hnot : ~ In x (map vacancy_id d)).
  { rewrite <- has_vacancy_In. now rewrite Hx. }
  clear Hx. induction (map vacancy_id d) as [|a l IH]; simpl.
  - constructor; [intros [] | constructor].
  - inversion Hd as [|? ? Ha Hl]; subst. constructor.
    + rewrite in_app_iff. simpl. intros [H | [H | []]]; [now apply Ha|].
      subst. apply Hnot. now left.
    + apply IH; [exact Hl|]. intros H. apply Hnot. now right.
Qed.

(** [MAX] is an upper bound of the ids of the table. *)
Lemma select_max_bound (d : table) (x : Z) :
  has_vacancy d x = true -> exists m, select_max d = Some m /\ x <= m.
Proof.
  induction d as [|r d IH]; simpl; [discriminate|].
  rewrite orb_true_iff. intros [H | H].
  - apply Z.eqb_eq in H. subst x.
    destruct (select_max d) as [m|]; eexists; split; try reflexivity; lia.
  - destruct (IH H) as [m [Hm Hle]]. rewrite Hm.
    eexists; split; [reflexivity | lia].
Qed.

(** and it is one of them. *)
Lemma select_max_member (d : table) (m : Z) :
  select_max d = Some m -> has_vacancy d m = true.
Proof.
  revert m. induction d as [|r d IH]; simpl; [discriminate|].
  intros m. destruct (select_max d) as [m'|].
  - intros [= <-]. rewrite orb_true_iff.
    destruct (Z.max_spec (vacancy_id r) m') as [[_ ->] | [_ ->]].
    + right. now apply IH.
    + left. apply Z.eqb_refl.
  - intros [= <-]. now rewrite Z.eqb_refl.
Qed.

Lemma select_max_empty (d : table) : select_max d = None -> d = [].
Proof.
  destruct d as [|r d]; simpl; [reflexivity|].
  now destruct (select_max d).
Qed.

Lemma processed_le_last (d : table) (x : Z) :
  is_processed d x = true -> x <= get_last_processed_id d.
Proof.
  intros H. destruct (select_max_bound d x H) as [m [Hm Hle]].
  unfold get_last_processed_id. now rewrite Hm.
Qed.

End Store.

(** C8. Saving an id twice leaves the table as saving it once does,
    whatever the times of the two calls; the second call reports the id
    as saved, not an error.  On a table that already holds the id, the
    insert of [save_processed_id] changes nothing and succeeds, where the
    same insert without [OR IGNORE] fails on the [UNIQUE] constraint; and
    the ids of the table stay unique. *)
Theorem save_processed_id_idempotent :
  forall (now1 now2 x : Z) (d : table),
    let once := save_processed_id now1 x d in
    save_processed_id now2 x (fst once) = (fst once, SavedId x)
    /\ snd once = SavedId x
    /\ is_processed (fst once) x = true
    /\ (is_processed d x = true ->
        save_processed_id now2 x d = (d, SavedId x)
        /\ sql_insert OrAbort now2 x d = inl IntegrityError)
    /\ (unique_ids d -> unique_ids (fst once)).
Proof.
  intros now1 now2 x d once.
  assert (Hin : has_vacancy (fst once) x = true).
  { unfold once. rewrite save_processed_id_has, Z.eqb_refl. apply orb_true_r. }
  repeat split.
  - rewrite save_processed_id_eq. now rewrite Hin.
  - unfold once. now rewrite save_processed_id_eq.
  - exact Hin.
  - rewrite save_processed_id_eq. unfold is_processed in H. now rewrite H.
  - unfold sql_insert. unfold is_processed in H. now rewrite H.
  - apply save_processed_id_unique.
Qed.

(** ** One pass of the loop *)

Section Pass.

Variables World Tag : Type.
Variable E : collaborators World Tag.

Local Abbreviation state := (scan_state World).

Lemma save_and_advance_eq (counted : bool) (st : state) (w : World)
    (printed : list event) :
  save_and_advance E counted st w printed =
  {| current_id := current_id st + 1;
     new_count := if counted then new_count st + 1 else new_count st;
     missing_count := 0;
     db := if has_vacancy (db st) (current_id st) then db st
           else db st ++ [mk_row (current_id st) (current_timestamp E w)];
     world := w;
     log := log st ++ printed ++ [Save (SavedId (current_id st))] |}.
Proof.
  unfold save_and_advance. now rewrite save_processed_id_eq.
Qed.

Lemma save_and_advance_has (counted : bool) (st : state) (w : World)
    (printed : list event) (y : Z) :
  has_vacancy (db (save_and_advance E counted st w printed)) y =
  has_vacancy (db st) y || (current_id st =? y).
Proof.
  rewrite save_and_advance_eq. simpl.
  pose proof (save_processed_id_has (current_timestamp E w)
                (current_id st) y (db st)) as H.
  rewrite save_processed_id_eq in H. exact H.
Qed.



(** The ways [format_vacancy_deepseek] fails or comes back empty: the
    request raises, the status is not 200, or the content is blank. *)
Lemma format_request_raises (raw : string) (w w' : World) :
  deepseek_post E (DEEPSEEK_API_KEY E) raw w = (None, w') ->
  format_vacancy_deepseek E raw w = (FormatRaised, w').
Proof. intros H. unfold format_vacancy_deepseek. now rewrite H. Qed.

Lemma format_bad_status (raw : string) (w w' : World) (resp : response) :
  deepseek_post E (DEEPSEEK_API_KEY E) raw w = (Some resp, w') ->
  status_code resp <> 200 ->
  format_vacancy_deepseek E raw w = (FormatRaised, w').
Proof.
  intros H Hs. unfold format_vacancy_deepseek. rewrite H.
  apply Z.eqb_neq in Hs. now rewrite Hs.
Qed.

Lemma format_blank_content (raw content : string) (w w' : World)
    (resp : response) :
  deepseek_post E (DEEPSEEK_API_KEY E) raw w = (Some resp, w') ->
  status_code resp = 200 ->
  response_content E (text resp) = Some content ->
  PyStr.strip content = "" ->
  format_vacancy_deepseek E raw w = (FormatReturned "", w').
Proof.
  intros H Hs Hc Hb. unfold format_vacancy_deepseek.
  rewrite H, Hs, Hc, Hb. reflexivity.
Qed.

(** The pass for an id that is not there. *)
Lemma loop_body_missing (st : state) (w1 : World) :
  parse_vacancy_page E (current_id st) (world st) = (None, w1) ->
  loop_body E st =
  Some {| current_id := current_id st + 1;
          new_count := new_count st;
          missing_count := missing_count st + 1;
          db := db st;
          world := w1;
          log := log st ++ [Checking (current_id st);
                            NotFound (current_id st)] |}.
Proof. intros H. unfold loop_body. now rewrite H. Qed.

(** The pass for a page the formatter fails on, or finds nothing in. *)
Lemma loop_body_unformatted (st : state) (raw : string) (w1 w2 : World)
    (r : format_result) :
  parse_vacancy_page E (current_id st) (world st) = (Some raw, w1) ->
  format_vacancy_deepseek E raw w1 = (r, w2) ->
  r = FormatRaised \/ r = FormatReturned "" ->
  loop_body E st =
  Some (save_and_advance E false st w2
          [Checking (current_id st);
           match r with
           | FormatRaised => FormatError (current_id st)
           | FormatReturned _ => EmptyResult (current_id st)
           end]).
Proof.
  intros Hp Hf Hr. unfold loop_body. rewrite Hp, Hf.
  destruct Hr as [-> | ->]; reflexivity.
Qed.

(** The pass for a page that is formatted and classified. *)
Lemma loop_body_delivery (st : state) (raw text : string) (w1 w2 w3 : World)
    (topic_id : Z) (ok : bool) :
  parse_vacancy_page E (current_id st) (world st) = (Some raw, w1) ->
  format_vacancy_deepseek E raw w1 = (FormatReturned text, w2) ->
  PyStr.is_empty text = false ->
  choose_topic text = Some topic_id ->
  topic_id <> 0 ->
  send_message E (TARGET_CHAT_ID E) text topic_id w2 = (ok, w3) ->
  loop_body E st =
  Some (save_and_advance E true st w3
          [Checking (current_id st);
           Send (current_id st) topic_id text ok]).
Proof.
  intros Hp Hf He Hc Ht Hs. unfold loop_body. rewrite Hp, Hf, He, Hc.
  apply Z.eqb_neq in Ht. now rewrite Ht, Hs.
Qed.

(** What any pass does, whichever way it goes: it never raises, it moves
    to the next id, it prints only about the id it looked at, and either
    it counts a miss and leaves the table alone or it saves the id. *)
Lemma loop_body_effect (st : state) :
  exists st' evs,
    loop_body E st = Some st'
    /\ current_id st' = current_id st + 1
    /\ log st' = log st ++ evs
    /\ (forall e, In e evs -> event_id e = Some (current_id st))
    /\ new_count st' = new_count st + sends evs
    /\ ((missing_count st' = missing_count st + 1 /\ db st' = db st
         /\ forall e, In e evs -> is_send e = false /\ is_save e = false)
        \/ (missing_count st' = 0
            /\ In (Save (SavedId (current_id st))) evs
            /\ forall y, has_vacancy (db st') y =
                         has_vacancy (db st) y || (current_id st =? y))).
Proof.
  unfold loop_body.
  destruct (parse_vacancy_page E (current_id st) (world st)) as [[raw|] w1].
  2:{ eexists _, _. split; [reflexivity|]. simpl.
      repeat split; try reflexivity; try (unfold sends; simpl; lia).
      - intros e [<- | [<- | []]]; reflexivity.
      - left. split; [reflexivity | split; [reflexivity|]].
        intros e [<- | [<- | []]]; split; reflexivity. }
  assert (Hsave : forall (counted : bool) (w : World) (printed : list event),
    (forall e, In e printed -> event_id e = Some (current_id st)) ->
    sends printed = (if counted then 1 else 0) ->
    let st' := save_and_advance E counted st w printed in
    current_id st' = current_id st + 1
    /\ log st' = log st ++ (printed ++ [Save (SavedId (current_id st))])
    /\ (forall e, In e (printed ++ [Save (SavedId (current_id st))]) ->
        event_id e = Some (current_id st))
    /\ new_count st' =
       new_count st + sends (printed ++ [Save (SavedId (current_id st))])
    /\ ((missing_count st' = missing_count st + 1 /\ db st' = db st
         /\ forall e, In e (printed ++ [Save (SavedId (current_id st))]) ->
                      is_send e = false /\ is_save e = false)
        \/ (missing_count st' = 0
            /\ In (Save (SavedId (current_id st)))
                  (printed ++ [Save (SavedId (current_id st))])
            /\ forall y, has_vacancy (db st') y =
                         has_vacancy (db st) y || (current_id st =? y)))).
  { intros counted w printed Hid Hs st'.
    assert (Hsends : sends (printed ++ [Save (SavedId (current_id st))])
                     = sends printed).
    { unfold sends. rewrite filter_app. simpl. now rewrite app_nil_r. }
    split; [|split; [|split; [|split]]].
    - unfold st'. now rewrite save_and_advance_eq.
    - unfold st'. now rewrite save_and_advance_eq.
    - intros e He. apply in_app_iff in He as [He | [<- | []]];
        [now apply Hid | reflexivity].
    - unfold st'. rewrite save_and_advance_eq, Hsends, Hs. simpl.
      destruct counted; lia.
    - right. split; [|split].
      + unfold st'. now rewrite save_and_advance_eq.
      + apply in_app_iff. right. now left.
      + intros y. apply save_and_advance_has. }
  assert (Hpr : forall ev, event_id ev = Some (current_id st) ->
                forall e, In e [Checking (current_id st); ev] ->
                          event_id e = Some (current_id st)).
  { intros ev Hev e [<- | [<- | []]]; [reflexivity | exact Hev]. }
  destruct (format_vacancy_deepseek E raw w1) as [[|text] w2].
  - eexists _, _. split; [reflexivity|].
    apply (Hsave false w2 [Checking (current_id st);
                           FormatError (current_id st)]);
      [now apply Hpr | reflexivity].
  - destruct (PyStr.is_empty text).
    + eexists _, _. split; [reflexivity|].
      apply (Hsave false w2 [Checking (current_id st);
                             EmptyResult (current_id st)]);
        [now apply Hpr | reflexivity].
    + rewrite choose_topic_value.
      destruct (match_topic TOPIC_ID_MAPPING (lower_line_of text) =? 0).
      * eexists _, _. split; [reflexivity|].
        apply (Hsave false w2 [Checking (current_id st);
                               NoTopic (current_id st)]);
          [now apply Hpr | reflexivity].
      * destruct (send_message E (TARGET_CHAT_ID E) text
                    (match_topic TOPIC_ID_MAPPING (lower_line_of text)) w2)
          as [ok w3].
        eexists _, _. split; [reflexivity|].
        apply (Hsave true w3
                 [Checking (current_id st);
                  Send (current_id st)
                       (match_topic TOPIC_ID_MAPPING (lower_line_of text))
                       text ok]);
          [now apply Hpr | reflexivity].
Qed.

End Pass.

(** ** Runs of the loop *)

Section Runs.

Variables World Tag : Type.
Variable E : collaborators World Tag.

Local Abbreviation state := (scan_state World).

Lemma steps_cons (st st1 st2 : state) :
  step E st st1 -> steps E st1 st2 -> steps E st st2.
Proof.
  intros H1 H2. induction H2 as [st1 | st1 st2 st3 _ IH Hs].
  - eapply steps_next; [apply steps_refl | exact H1].
  - eapply steps_next; [apply IH; exact H1 | exact Hs].
Qed.

(** What a run of passes does to the state. *)
Lemma steps_effect (st st' : state) :
  steps E st st' ->
  current_id st <= current_id st'
  /\ (missing_count st <= max_missing -> missing_count st' <= max_missing)
  /\ (forall y, has_vacancy (db st) y = true -> has_vacancy (db st') y = true)
  /\ exists evs,
       log st' = log st ++ evs
       /\ (forall e, In e evs ->
             exists x, event_id e = Some x
                       /\ current_id st <= x < current_id st')
       /\ new_count st' = new_count st + sends evs
       /\ (forall y, has_vacancy (db st') y = true ->
             has_vacancy (db st) y = true \/ In (Save (SavedId y)) evs).
Proof.
  induction 1 as [st | st st1 st2 _ IH [Hguard Hbody]].
  - split; [lia|]. split; [tauto|]. split; [tauto|].
    exists []. rewrite app_nil_r. repeat split; try tauto.
    + intros e [].
    + unfold sends. simpl. lia.
  - destruct IH as [Hid [Hmiss [Hdb [evs [Hlog [Hev [Hcount Hsaved]]]]]]].
    destruct (loop_body_effect World Tag E st1)
      as [st2' [evs2 [Hb [Hid2 [Hlog2 [Hev2 [Hcount2 Hkind]]]]]]].
    rewrite Hbody in Hb. injection Hb as <-.
    split; [lia|]. split; [|split].
    + intros Hle. destruct Hkind as [[Hm _] | [Hm _]]; unfold max_missing in *; lia.
    + intros y Hy. apply Hdb in Hy.
      destruct Hkind as [[_ [-> _]] | [_ [_ Hhas]]]; [exact Hy|].
      rewrite Hhas, Hy. reflexivity.
    + exists (evs ++ evs2). rewrite Hlog2, Hlog, app_assoc.
      split; [reflexivity|]. split; [|split].
      * intros e He. apply in_app_iff in He as [He | He].
        -- destruct (Hev e He) as [x [Hx Hr]]. exists x. split; [exact Hx | lia].
        -- exists (current_id st1). split; [now apply Hev2 | lia].
      * rewrite Hcount2, Hcount. unfold sends.
        rewrite filter_app, length_app. lia.
      * intros y Hy.
        destruct Hkind as [[_ [Hsame _]] | [_ [Hin Hhas]]].
        -- rewrite Hsame in Hy. destruct (Hsaved y Hy) as [H | H];
             [now left | right; apply in_app_iff; now left].
        -- rewrite Hhas in Hy. apply orb_true_iff in Hy as [Hy | Hy].
           ++ destruct (Hsaved y Hy) as [H | H];
                [now left | right; apply in_app_iff; now left].
           ++ apply Z.eqb_eq in Hy. subst y.
              right. apply in_app_iff. now right.
Qed.

(** A loop that returns has made a run of passes and left on the test. *)
Lemma check_loop_steps (fuel : nat) (st st' : state) :
  check_loop E fuel st = Returns st' ->
  steps E st st' /\ max_missing <= missing_count st'.
Proof.
  revert st. induction fuel as [|fuel IH]; intros st; simpl; [discriminate|].
  destruct (Z.ltb_spec (missing_count st) max_missing) as [Hlt | Hge].
  - destruct (loop_body E st) as [st1|] eqn:Hb; [|discriminate].
    intros H. destruct (IH st1 H) as [Hs Hm]. split; [|exact Hm].
    eapply steps_cons; [split; eassumption | exact Hs].
  - intros [= <-]. split; [apply steps_refl | exact Hge].
Qed.

(** More fuel does not change what a loop returns. *)
Lemma check_loop_more_fuel (fuel fuel' : nat) (st st' : state) :
  check_loop E fuel st = Returns st' -> (fuel <= fuel')%nat ->
  check_loop E fuel' st = Returns st'.
Proof.
  revert fuel' st. induction fuel as [|fuel IH]; intros fuel' st; simpl;
    [discriminate|].
  intros H Hle. destruct fuel' as [|fuel']; [lia|]. simpl.
  destruct (missing_count st <? max_missing); [|exact H].
  destruct (loop_body E st) as [st1|]; [|discriminate].
  apply (IH fuel' st1 H). lia.
Qed.

(** The loop stops at once when the miss counter has reached the bound. *)
Lemma check_loop_at_bound (fuel : nat) (st : state) :
  max_missing <= missing_count st -> check_loop E (S fuel) st = Returns st.
Proof.
  intros H. simpl.
  destruct (Z.ltb_spec (missing_count st) max_missing); [lia | reflexivity].
Qed.

(** and it stops with the counter exactly at the bound. *)
Lemma check_loop_exit_count (fuel : nat) (st st' : state) :
  check_loop E fuel st = Returns st' ->
  missing_count st <= max_missing -> missing_count st' = max_missing.
Proof.
  intros H Hle. destruct (check_loop_steps fuel st st' H) as [Hs Hge].
  destruct (steps_effect st st' Hs) as [_ [Hm _]]. specialize (Hm Hle). lia.
Qed.

(** A streak of [k] absent ids that completes the bound ends the loop,
    with nothing sent and nothing saved. *)
Lemma misses_run (k : nat) (st : state) :
  missing_count st = max_missing - Z.of_nat k ->
  (forall i w', 0 <= i < Z.of_nat k ->
     fst (parse_vacancy_page E (current_id st + i) w') = None) ->
  exists st',
    check_loop E (S k) st = Returns st'
    /\ current_id st' = current_id st + Z.of_nat k
    /\ new_count st' = new_count st
    /\ missing_count st' = max_missing
    /\ db st' = db st
    /\ exists evs, log st' = log st ++ evs
                   /\ Forall (fun e => is_send e = false /\ is_save e = false)
                             evs.
Proof.
  revert st. induction k as [|k IH]; intros st Hm Hp.
  - exists st. change (Z.of_nat 0) with 0 in *.
    rewrite check_loop_at_bound by lia.
    repeat split; try lia.
    exists []. now rewrite app_nil_r.
  - destruct (parse_vacancy_page E (current_id st) (world st))
      as [r w1] eqn:Hparse.
    assert (r = None) as ->.
    { specialize (Hp 0 (world st)). rewrite Z.add_0_r, Hparse in Hp.
      apply Hp. lia. }
    pose proof (loop_body_missing World Tag E st w1 Hparse) as Hb.
    set (st1 := {| current_id := current_id st + 1;
                   new_count := new_count st;
                   missing_count := missing_count st + 1;
                   db := db st; world := w1;
                   log := log st ++ [Checking (current_id st);
                                     NotFound (current_id st)] |}) in *.
    destruct (IH st1) as [st' [Hrun [Hid [Hn [Hmc [Hdb [evs [Hlog Hall]]]]]]]].
    + unfold st1. cbn [missing_count]. lia.
    + intros i w' Hi. unfold st1. cbn [current_id].
      replace (current_id st + 1 + i) with (current_id st + (1 + i)) by lia.
      apply Hp. lia.
    + exists st'. split.
      * change (check_loop E (S (S k)) st) with
          (if missing_count st <? max_missing
           then match loop_body E st with
                | None => Raises
                | Some s => check_loop E (S k) s
                end
           else Returns st).
        destruct (Z.ltb_spec (missing_count st) max_missing); [|lia].
        rewrite Hb. exact Hrun.
      * unfold st1 in Hid, Hn, Hdb, Hlog.
        cbn [current_id new_count db log] in Hid, Hn, Hdb, Hlog.
        repeat split; try lia; try assumption.
        exists ([Checking (current_id st); NotFound (current_id st)] ++ evs).
        split; [now rewrite Hlog, app_assoc|].
        repeat constructor. exact Hall.
Qed.

(** A table that holds [x] makes the scan start beyond [x]. *)
Lemma scan_starts_beyond (d : table) (w : World) (x : Z) :
  is_processed d x = true -> x < current_id (initial_state d w).
Proof. intros H. apply processed_le_last in H. simpl. lia. Qed.

(** Nothing that a scan prints is about an id of the table it began
    with. *)
Lemma processed_not_mentioned (d : table) (w : World) (x : Z) (st : state) :
  is_processed d x = true ->
  steps E (initial_state d w) st ->
  Forall (fun e => mentions x e = false) (log st).
Proof.
  intros Hx Hs. pose proof (scan_starts_beyond d w x Hx) as Hlt.
  destruct (steps_effect _ _ Hs) as [_ [_ [_ [evs [Hlog [Hev _]]]]]].
  simpl in Hlog. rewrite Hlog. apply Forall_forall. intros e He.
  destruct (Hev e He) as [y [Hy Hr]]. unfold mentions. rewrite Hy.
  apply Z.eqb_neq. lia.
Qed.

End Runs.

(** Settles a goal about a small integer by trying each value of the
    disjunction [H] in turn. *)
Ltac each_value H :=
  repeat (destruct H as [-> | H]; [reflexivity|]); subst; reflexivity.

(** ** Ids that are dealt with *)

Lemma delivers_mentions (x : Z) (e : event) :
  mentions x e = false -> delivers x e = false.
Proof. destruct e; simpl; auto. Qed.

Lemma Forall_not_delivered (x : Z) (l : list event) :
  Forall (fun e => mentions x e = false) l ->
  Forall (fun e => delivers x e = false) l.
Proof.
  intros H. eapply Forall_impl; [|exact H]. apply delivers_mentions.
Qed.

(** Once the scan is past an id that is in the table, the id is settled. *)
Lemma past_and_saved_settled {World Tag : Type} (E : collaborators World Tag)
    (x : Z) (st' : scan_state World) :
  x < current_id st' -> is_processed (db st') x = true -> settled E x st'.
Proof.
  intros Hlt Hin. split.
  - intros st'' Hs.
    destruct (steps_effect World Tag E st' st'' Hs)
      as [_ [_ [Hdb [evs [Hlog [Hev _]]]]]].
    split; [now apply Hdb|]. exists evs. split; [exact Hlog|].
    apply Forall_forall. intros e He. destruct (Hev e He) as [y [Hy Hr]].
    unfold mentions. rewrite Hy. apply Z.eqb_neq. lia.
  - intros World2 Tag2 E2 d2 w2 st2 Hd Hs.
    exact (processed_not_mentioned World2 Tag2 E2 d2 w2 x st2 Hd Hs).
Qed.

(** C1. A scan delivers nothing for an id that the table already holds:
    it starts at the id after the highest one of the table, which is
    beyond every id of the table; every pass moves one id up; so no call
    of [bot.send_message] in any state the scan reaches, or in the scan
    that has returned, is for such an id. *)
Theorem processed_id_never_delivered :
  forall (World Tag : Type) (E : collaborators World Tag)
         (d : table) (w : World) (x : Z),
    is_processed d x = true ->
    current_id (initial_state d w) = get_last_processed_id d + 1
    /\ x < current_id (initial_state d w)
    /\ (forall st st', step E st st' -> current_id st' = current_id st + 1)
    /\ (forall st, steps E (initial_state d w) st ->
          Forall (fun e => delivers x e = false) (log st))
    /\ (forall fuel v st,
          check_new_vacancies E fuel d w = Returns (v, st) ->
          Forall (fun e => delivers x e = false) (log st)).
Proof.
  intros World Tag E d w x Hx.
  split; [reflexivity|]. split; [now apply scan_starts_beyond|].
  split; [|split].
  - intros st st' [_ Hb].
    destruct (loop_body_effect World Tag E st) as [s [evs [Hs [Hid _]]]].
    rewrite Hb in Hs. now injection Hs as <-.
  - intros st Hs. apply Forall_not_delivered.
    exact (processed_not_mentioned World Tag E d w x st Hx Hs).
  - intros fuel v st. unfold check_new_vacancies.
    destruct (check_loop E fuel (initial_state d w)) as [| |s] eqn:Hrun;
      try discriminate.
    intros [= <- <-]. simpl.
    apply check_loop_steps in Hrun as [Hs _].
    apply Forall_app. split; [|repeat constructor].
    apply Forall_not_delivered.
    exact (processed_not_mentioned World Tag E d w x s Hx Hs).
Qed.

(** C1 on a table that holds 308421, against a site that still serves
    that page: the scan delivers 308422 and 308423 only. *)
Lemma processed_id_never_delivered_witness :
  is_processed [mk_row 308421 5] 308421 = true
  /\ exists st,
       check_new_vacancies
         (Sim.site [308421; 308422; 308423] [] Sim.fmt_master true)
         20 [mk_row 308421 5] 0 = Returns (PyNone, st)
       /\ Forall (fun e => delivers 308421 e = false) (log st).
Proof.
  split; [reflexivity|].
  eexists. split; [vm_compute; reflexivity|].
  apply (proj2 (proj2 (proj2 (proj2
    (processed_id_never_delivered Z string
       (Sim.site [308421; 308422; 308423] [] Sim.fmt_master true)
       [mk_row 308421 5] 0 308421 eq_refl)))) 20%nat PyNone).
  vm_compute; reflexivity.
Defined.

(** C2. The loop stops as soon as the miss counter is at [max_missing],
    which is 10, and a loop that returns has the counter exactly there.
    When the ten ids from the first candidate on are all absent, the scan
    returns (eleven tests of the loop condition are enough), with the
    table as it was, nothing counted, nothing sent and nothing saved. *)
Theorem miss_streak_terminates :
  forall (World Tag : Type) (E : collaborators World Tag)
         (d : table) (w : World),
    max_missing = 10
    /\ (forall fuel st,
          max_missing <= missing_count st ->
          check_loop E (S fuel) st = Returns st)
    /\ (forall fuel st',
          check_loop E fuel (initial_state d w) = Returns st' ->
          missing_count st' = max_missing)
    /\ ((forall i w', 0 <= i < 10 ->
           fst (parse_vacancy_page E (get_last_processed_id d + 1 + i) w')
           = None) ->
        forall fuel, (11 <= fuel)%nat ->
          exists st,
            check_new_vacancies E fuel d w = Returns (PyNone, st)
            /\ db st = d
            /\ new_count st = 0
            /\ current_id st = get_last_processed_id d + 11
            /\ Forall (fun e => is_send e = false /\ is_save e = false)
                      (log st)).
Proof.
  intros World Tag E d w. split; [reflexivity|].
  split; [intros fuel st; apply check_loop_at_bound|].
  split.
  - intros fuel st' H.
    apply (check_loop_exit_count World Tag E fuel _ _ H).
    simpl. unfold max_missing. lia.
  - intros Hp fuel Hfuel.
    destruct (misses_run World Tag E 10 (initial_state d w))
      as [st' [Hrun [Hid [Hn [Hm [Hdb [evs [Hlog Hall]]]]]]]].
    + reflexivity.
    + intros i w' Hi. apply Hp. simpl in Hi. lia.
    + apply check_loop_more_fuel with (fuel' := fuel) in Hrun; [|exact Hfuel].
      unfold check_new_vacancies. rewrite Hrun.
      eexists. split; [reflexivity|]. simpl in *.
      repeat split; try assumption; try lia.
      rewrite Hlog. simpl. apply Forall_app. split; [exact Hall|].
      repeat constructor.
Qed.

(** C2 on an empty table, against a site whose pages lie outside the ten
    ids that the scan looks at. *)
Lemma miss_streak_terminates_witness :
  exists st,
    check_new_vacancies (Sim.site [308420; 308431] [] Sim.fmt_master true)
                        11 [] 0 = Returns (PyNone, st)
    /\ db st = []
    /\ new_count st = 0
    /\ current_id st = 308431.
Proof.
  destruct (proj2 (proj2 (proj2
    (miss_streak_terminates Z string
       (Sim.site [308420; 308431] [] Sim.fmt_master true) [] 0))))
    with (fuel := 11%nat) as [st [Hrun [Hdb [Hn [Hid _]]]]].
  - intros i w' Hi.
    assert (Hcases : i = 0 \/ i = 1 \/ i = 2 \/ i = 3 \/ i = 4 \/ i = 5
                     \/ i = 6 \/ i = 7 \/ i = 8 \/ i = 9) by lia.
    each_value Hcases.
  - apply le_n.
  - exists st. repeat split; assumption.
Defined.

(** C5. When the page of an id is fetched and the formatter raises or
    returns the empty text, the pass saves the id, sends nothing, and
    goes on to the next id; from then on the id is settled: nothing
    more is printed about it in this scan, nor in any later scan of a
    table that holds it. *)
Theorem unformatted_id_is_processed :
  forall (World Tag : Type) (E : collaborators World Tag)
         (st : scan_state World) (raw : string) (w1 w2 : World)
         (r : format_result),
    parse_vacancy_page E (current_id st) (world st) = (Some raw, w1) ->
    format_vacancy_deepseek E raw w1 = (r, w2) ->
    r = FormatRaised \/ r = FormatReturned "" ->
    exists st' ev,
      loop_body E st = Some st'
      /\ is_processed (db st') (current_id st) = true
      /\ current_id st' = current_id st + 1
      /\ new_count st' = new_count st
      /\ missing_count st' = 0
      /\ log st' = log st ++ [Checking (current_id st); ev;
                              Save (SavedId (current_id st))]
      /\ is_send ev = false
      /\ settled E (current_id st) st'.
Proof.
  intros World Tag E st raw w1 w2 r Hp Hf Hr.
  rewrite (loop_body_unformatted World Tag E st raw w1 w2 r Hp Hf Hr).
  eexists _, _. split; [reflexivity|].
  assert (Hin : is_processed
                  (db (save_and_advance E false st w2
                         [Checking (current_id st);
                          match r with
                          | FormatRaised => FormatError (current_id st)
                          | FormatReturned _ => EmptyResult (current_id st)
                          end])) (current_id st) = true).
  { unfold is_processed. rewrite save_and_advance_has, Z.eqb_refl.
    apply orb_true_r. }
  split; [exact Hin|].
  rewrite save_and_advance_eq in *. simpl in *.
  do 4 (split; [reflexivity|]).
  split; [now destruct r|].
  apply past_and_saved_settled; simpl; [lia | exact Hin].
Qed.

(** C5 where the formatter returns the empty text for the first id. *)
Lemma unformatted_id_is_processed_witness :
  exists st',
    loop_body (Sim.site [308421] [] Sim.fmt_empty true)
              (initial_state [] 0) = Some st'
    /\ is_processed (db st') 308421 = true
    /\ log st' = [Checking 308421; EmptyResult 308421;
                  Save (SavedId 308421)].
Proof.
  destruct (unformatted_id_is_processed Z string
              (Sim.site [308421] [] Sim.fmt_empty true)
              (initial_state [] 0) ("Job Title: Master" ++ nl ++ "Master")
              1 2 (FormatReturned ""))
    as [st' [ev [Hb [Hin [_ [_ [_ [Hlog _]]]]]]]].
  - reflexivity.
  - reflexivity.
  - now right.
  - exists st'. split; [exact Hb|]. split; [exact Hin|].
    vm_compute in Hb. injection Hb as <-. reflexivity.
Defined.

(** C7. When the call of [bot.send_message] for an id raises, the pass
    still saves the id and goes on to the next one, counting it like a
    delivery that went through; from then on the id is settled, so the
    message is never sent again. *)
Theorem failed_delivery_is_processed :
  forall (World Tag : Type) (E : collaborators World Tag)
         (st : scan_state World) (raw text : string) (w1 w2 w3 : World)
         (topic_id : Z),
    parse_vacancy_page E (current_id st) (world st) = (Some raw, w1) ->
    format_vacancy_deepseek E raw w1 = (FormatReturned text, w2) ->
    PyStr.is_empty text = false ->
    choose_topic text = Some topic_id ->
    topic_id <> 0 ->
    send_message E (TARGET_CHAT_ID E) text topic_id w2 = (false, w3) ->
    exists st',
      loop_body E st = Some st'
      /\ is_processed (db st') (current_id st) = true
      /\ current_id st' = current_id st + 1
      /\ new_count st' = new_count st + 1
      /\ log st' = log st ++ [Checking (current_id st);
                              Send (current_id st) topic_id text false;
                              Save (SavedId (current_id st))]
      /\ settled E (current_id st) st'.
Proof.
  intros World Tag E st raw text w1 w2 w3 topic_id Hp Hf He Hc Ht Hs.
  rewrite (loop_body_delivery World Tag E st raw text w1 w2 w3 topic_id
             false Hp Hf He Hc Ht Hs).
  eexists. split; [reflexivity|].
  assert (Hin : is_processed
                  (db (save_and_advance E true st w3
                         [Checking (current_id st);
                          Send (current_id st) topic_id text false]))
                  (current_id st) = true).
  { unfold is_processed. rewrite save_and_advance_has, Z.eqb_refl.
    apply orb_true_r. }
  split; [exact Hin|].
  rewrite save_and_advance_eq in *. simpl in *.
  do 3 (split; [reflexivity|]).
  apply past_and_saved_settled; simpl; [lia | exact Hin].
Qed.

(** C7 where the channel refuses the message for the first id. *)
Lemma failed_delivery_is_processed_witness :
  exists st',
    loop_body (Sim.site [308421] [] Sim.fmt_master false)
              (initial_state [] 0) = Some st'
    /\ is_processed (db st') 308421 = true
    /\ new_count st' = 1.
Proof.
  destruct (failed_delivery_is_processed Z string
              (Sim.site [308421] [] Sim.fmt_master false)
              (initial_state [] 0) ("Job Title: Master" ++ nl ++ "Master")
              Sim.master_text 1 2 3 2)
    as [st' [Hb [Hin [_ [Hn _]]]]].
  - reflexivity.
  - reflexivity.
  - reflexivity.
  - reflexivity.
  - discriminate.
  - reflexivity.
  - exists st'. repeat split; assumption.
Defined.

(** ** What the scan hands back, and where it starts *)

(** C9, as the design document has it, fails: the scan that delivers
    vacancy 308421 returns [None], not a mapping of counts. *)
Lemma scan_returns_counts_fails :
  (exists st,
     check_new_vacancies (Sim.site [308421] [] Sim.fmt_master true)
                         20 [] 0 = Returns (PyNone, st)
     /\ new_count st = 1)
  /\ ~ scan_returns_counts (Sim.site [308421] [] Sim.fmt_master true)
                           20 [] 0.
Proof.
  split.
  - eexists. split; [vm_compute; reflexivity | reflexivity].
  - intros [v [st [Hrun [a [dl Hv]]]]]. subst v.
    vm_compute in Hrun. discriminate.
Qed.

(** C9, amended.  [check_new_vacancies] ends without a [return]: a scan
    that comes back hands back [None].  It keeps one counter,
    [new_count], the number of calls of [bot.send_message] it made,
    whether they went through or not, and prints it in the closing
    message, after the loop has left on the miss bound. *)
Theorem scan_returns_none :
  forall (World Tag : Type) (E : collaborators World Tag)
         (fuel : nat) (d : table) (w : World)
         (v : py_value) (st : scan_state World),
    check_new_vacancies E fuel d w = Returns (v, st) ->
    v = PyNone
    /\ missing_count st = max_missing
    /\ exists evs,
         log st = evs ++ [Complete (new_count st)]
         /\ new_count st = sends evs.
Proof.
  intros World Tag E fuel d w v st. unfold check_new_vacancies.
  destruct (check_loop E fuel (initial_state d w)) as [| |s] eqn:Hrun;
    try discriminate.
  intros [= <- <-]. simpl. split; [reflexivity|]. split.
  - apply (check_loop_exit_count World Tag E fuel _ _ Hrun).
    simpl. unfold max_missing. lia.
  - apply check_loop_steps in Hrun as [Hs _].
    destruct (steps_effect World Tag E _ _ Hs)
      as [_ [_ [_ [evs [Hlog [_ [Hn _]]]]]]].
    simpl in Hlog, Hn. exists evs. rewrite Hlog. split; [reflexivity | lia].
Qed.

(** C9, amended, where the channel refuses the one message of the scan:
    the scan returns [None] and the message is counted all the same. *)
Lemma scan_returns_none_witness :
  exists st,
    check_new_vacancies (Sim.site [308421] [] Sim.fmt_master false)
                        20 [] 0 = Returns (PyNone, st)
    /\ missing_count st = max_missing
    /\ new_count st = 1.
Proof.
  eexists. split; [vm_compute; reflexivity|]. split; [|reflexivity].
  refine (proj1 (proj2 (scan_returns_none Z string
                          (Sim.site [308421] [] Sim.fmt_master false)
                          20 [] 0 PyNone _ _))).
  vm_compute; reflexivity.
Defined.

(** C3, as the design document has it, fails: on an empty table, against
    a site that has pages for 308420 and 308421, the scan never looks at
    the fallback id 308420; it starts at 308421, and that is the id the
    table holds in the end. *)
Lemma scan_starts_at_fallback_fails :
  fallback_last_id = 308420
  /\ (exists st,
        check_new_vacancies
          (Sim.site [308420; 308421] [] Sim.fmt_master true) 20 [] 0
        = Returns (PyNone, st)
        /\ hd_error (log st) = Some (Checking 308421)
        /\ Forall (fun e => mentions 308420 e = false) (log st)
        /\ get_last_processed_id (db st) = 308421
        /\ is_processed (db st) 308420 = false)
  /\ ~ scan_starts_at_fallback
         (Sim.site [308420; 308421] [] Sim.fmt_master true) 20 0.
Proof.
  split; [reflexivity|]. split.
  - eexists. split; [vm_compute; reflexivity|].
    split; [reflexivity|]. split; [|split; reflexivity].
    repeat constructor.
  - intros [v [st [Hrun [Hhd _]]]].
    vm_compute in Hrun. injection Hrun as _ <-. discriminate.
Qed.

(** C3, amended.  On an empty table [get_last_processed_id] gives the
    fallback id 308420 and the scan starts at the id after it, 308421.
    When that page is fetched, formatted, classified and sent, and the
    ten ids after it are absent, the scan returns with exactly that one
    delivery, the table holds 308421 as its only and highest id, and the
    fallback id itself is not in it. *)
Theorem scan_starts_after_fallback :
  forall (World Tag : Type) (E : collaborators World Tag) (w : World),
    (fallback_last_id = 308420
     /\ get_last_processed_id [] = fallback_last_id
     /\ current_id (initial_state [] w) = fallback_last_id + 1)
    /\ forall (raw text : string) (w1 w2 w3 : World) (topic_id : Z)
              (ok : bool),
         parse_vacancy_page E (fallback_last_id + 1) w = (Some raw, w1) ->
         format_vacancy_deepseek E raw w1 = (FormatReturned text, w2) ->
         PyStr.is_empty text = false ->
         choose_topic text = Some topic_id ->
         topic_id <> 0 ->
         send_message E (TARGET_CHAT_ID E) text topic_id w2 = (ok, w3) ->
         (forall i w', 1 <= i <= 10 ->
            fst (parse_vacancy_page E (fallback_last_id + 1 + i) w') = None) ->
         forall fuel, (12 <= fuel)%nat ->
           exists st rest,
             check_new_vacancies E fuel [] w = Returns (PyNone, st)
             /\ log st = [Checking (fallback_last_id + 1);
                          Send (fallback_last_id + 1) topic_id text ok;
                          Save (SavedId (fallback_last_id + 1))] ++ rest
             /\ Forall (fun e => is_send e = false) rest
             /\ db st = [mk_row (fallback_last_id + 1)
                                (current_timestamp E w3)]
             /\ get_last_processed_id (db st) = fallback_last_id + 1
             /\ is_processed (db st) (fallback_last_id + 1) = true
             /\ is_processed (db st) fallback_last_id = false.
Proof.
  intros World Tag E w. split; [repeat split|].
  intros raw text w1 w2 w3 topic_id ok Hp Hf He Hc Ht Hs Hmiss fuel Hfuel.
  pose proof (loop_body_delivery World Tag E (initial_state [] w)
                raw text w1 w2 w3 topic_id ok Hp Hf He Hc Ht Hs) as Hb.
  rewrite save_and_advance_eq in Hb.
  change (current_id (initial_state [] w)) with (fallback_last_id + 1) in Hb.
  cbn [initial_state db new_count log has_vacancy existsb app] in Hb.
  set (st1 := {| current_id := fallback_last_id + 1 + 1;
                 new_count := 0 + 1;
                 missing_count := 0;
                 db := [mk_row (fallback_last_id + 1)
                               (current_timestamp E w3)];
                 world := w3;
                 log := [Checking (fallback_last_id + 1);
                         Send (fallback_last_id + 1) topic_id text ok;
                         Save (SavedId (fallback_last_id + 1))] |}) in *.
  destruct (misses_run World Tag E 10 st1)
    as [st' [Hrun [Hid [Hn [Hm [Hdb [evs [Hlog Hall]]]]]]]].
  - reflexivity.
  - intros i w' Hi. unfold st1. cbn [current_id].
    replace (fallback_last_id + 1 + 1 + i)
      with (fallback_last_id + 1 + (1 + i)) by lia.
    apply Hmiss. change (Z.of_nat 10) with 10 in Hi. lia.
  - assert (Hrun0 : check_loop E 12 (initial_state [] w) = Returns st').
    { change (check_loop E 12 (initial_state [] w)) with
        (match loop_body E (initial_state [] w) with
         | None => Raises
         | Some s => check_loop E 11 s
         end).
      rewrite Hb. exact Hrun. }
    apply check_loop_more_fuel with (fuel' := fuel) in Hrun0; [|exact Hfuel].
    unfold check_new_vacancies. rewrite Hrun0.
    eexists _, (evs ++ [Complete (new_count st')]).
    split; [reflexivity|]. cbn [log db]. rewrite Hlog, Hdb.
    unfold st1. cbn [log db].
    split; [now rewrite <- app_assoc|]. split.
    + apply Forall_app. split; [|repeat constructor].
      eapply Forall_impl; [|exact Hall]. now intros e [H _].
    + repeat split; reflexivity.
Qed.

(** C3, amended, against a site that has pages for 308420 and 308421. *)
Lemma scan_starts_after_fallback_witness :
  exists st,
    check_new_vacancies
      (Sim.site [308420; 308421] [] Sim.fmt_master true) 12 [] 0
    = Returns (PyNone, st)
    /\ get_last_processed_id (db st) = 308421
    /\ is_processed (db st) 308421 = true
    /\ is_processed (db st) 308420 = false.
Proof.
  destruct (proj2 (scan_starts_after_fallback Z string
                     (Sim.site [308420; 308421] [] Sim.fmt_master true) 0)
              ("Job Title: Master" ++ nl ++ "Master")%string
              Sim.master_text 1 2 3 2 true)
    with (fuel := 12%nat)
    as [st [rest [Hrun [_ [_ [_ [Hlast [Hin Hout]]]]]]]].
  - reflexivity.
  - reflexivity.
  - reflexivity.
  - reflexivity.
  - discriminate.
  - reflexivity.
  - intros i w' Hi.
    assert (Hcases : i = 1 \/ i = 2 \/ i = 3 \/ i = 4 \/ i = 5 \/ i = 6
                     \/ i = 7 \/ i = 8 \/ i = 9 \/ i = 10) by lia.
    each_value Hcases.
  - apply le_n.
  - exists st. repeat split; assumption.
Defined.

(** The pass where the formatter raises: the id is saved and nothing is
    sent. *)
Example formatter_raises_pass :
  option_map (fun st => (db st, log st))
    (loop_body (Sim.site [308421] [] Sim.fmt_fails true) (initial_state [] 0))
  = Some ([mk_row 308421 2],
          [Checking 308421; FormatError 308421; Save (SavedId 308421)]).
Proof. reflexivity. Qed.

(** A hole is not looked at again once a higher id is in the table: with
    308422 absent and 308423 delivered, the next scan starts at 308424. *)
Example hole_below_highest_id :
  get_last_processed_id [mk_row 308421 5; mk_row 308423 4] + 1 = 308424.
Proof. reflexivity. Qed.

(** ** More on the table *)

Lemma select_max_app (d : table) (r : row) :
  select_max (d ++ [r]) =
  Some (match select_max d with
        | None => vacancy_id r
        | Some m => Z.max m (vacancy_id r)
        end).
Proof.
  induction d as [|a d IH]; simpl; [reflexivity|].
  rewrite IH. destruct (select_max d) as [m|]; f_equal; lia.
Qed.

(** X1. After [save_processed_id x] the table holds [x], and it holds
    any other id exactly when it did before. *)
Theorem save_then_lookup :
  forall (now x y : Z) (d : table),
    is_processed (fst (save_processed_id now x d)) x = true
    /\ (y <> x ->
        is_processed (fst (save_processed_id now x d)) y = is_processed d y).
Proof.
  intros now x y d. unfold is_processed. rewrite !save_processed_id_has.
  split.
  - rewrite Z.eqb_refl. apply orb_true_r.
  - intros Hn. apply Z.eqb_neq in Hn. rewrite Z.eqb_sym in Hn.
    now rewrite Hn, orb_false_r.
Qed.

(** X2. What [get_last_processed_id] gives after a save: the saved id
    itself on an empty table, even when it lies below the fallback id,
    and otherwise the larger of the former highest id and the saved
    one. *)
Theorem last_id_after_save :
  forall (now x : Z) (d : table),
    get_last_processed_id (fst (save_processed_id now x d)) =
    match d with
    | [] => x
    | _ :: _ => Z.max (get_last_processed_id d) x
    end.
Proof.
  intros now x d. rewrite save_processed_id_eq. cbn [fst].
  unfold get_last_processed_id.
  destruct (has_vacancy d x) eqn:Hx.
  - destruct (select_max_bound d x Hx) as [m [Hm Hle]]. rewrite Hm.
    destruct d; [discriminate Hx | lia].
  - rewrite select_max_app. cbn [vacancy_id].
    destruct d as [|r d]; [reflexivity|].
    destruct (select_max (r :: d)) as [m|] eqn:Hm; [reflexivity|].
    apply select_max_empty in Hm. discriminate.
Qed.

(** X3. On a table with rows, [get_last_processed_id] is an id of the
    table and no id of the table is higher; on the empty table it is
    308420, which is then not an id of the table. *)
Theorem last_id_is_highest :
  forall (d : table),
    (d <> [] ->
     is_processed d (get_last_processed_id d) = true
     /\ forall y, is_processed d y = true -> y <= get_last_processed_id d)
    /\ (d = [] ->
        get_last_processed_id d = 308420
        /\ forall y, is_processed d y = false).
Proof.
  intros d. split.
  - intros Hne. split; [|apply processed_le_last].
    unfold get_last_processed_id, is_processed.
    destruct (select_max d) as [m|] eqn:Hm.
    + now apply select_max_member.
    + apply select_max_empty in Hm. contradiction.
  - intros ->. split; reflexivity.
Qed.

(** X3 on a table of three rows that are not in order. *)
Lemma last_id_is_highest_witness :
  is_processed [mk_row 308423 1; mk_row 308430 2; mk_row 308421 3]
               308430 = true
  /\ 308421 <= get_last_processed_id
                 [mk_row 308423 1; mk_row 308430 2; mk_row 308421 3].
Proof.
  destruct (proj1 (last_id_is_highest
                     [mk_row 308423 1; mk_row 308430 2; mk_row 308421 3]))
    as [Hin Hle].
  - discriminate.
  - split; [exact Hin | apply Hle; reflexivity].
Defined.

(** ** The shape of a pass and of a scan *)

Section Shape.

Variables World Tag : Type.
Variable E : collaborators World Tag.

Local Abbreviation state := (scan_state World).

(** A pass prints one of two blocks: the miss, which changes nothing in
    the table, or one outcome between [Checking] and [Save], with the
    row of the id saved. *)
Lemma loop_body_shape (st : state) :
  exists st',
    loop_body E st = Some st'
    /\ current_id st' = current_id st + 1
    /\ ((log st' = log st ++ [Checking (current_id st);
                              NotFound (current_id st)]
         /\ db st' = db st
         /\ missing_count st' = missing_count st + 1
         /\ new_count st' = new_count st)
        \/ (exists ev,
              log st' = log st ++ [Checking (current_id st); ev;
                                   Save (SavedId (current_id st))]
              /\ found_outcome (current_id st) ev
              /\ db st' = fst (save_processed_id
                                 (current_timestamp E (world st'))
                                 (current_id st) (db st))
              /\ missing_count st' = 0
              /\ new_count st' =
                 new_count st + (if is_send ev then 1 else 0))).
Proof.
  assert (Hsave : forall (counted : bool) (w : World) (ev : event),
    found_outcome (current_id st) ev -> is_send ev = counted ->
    let st' := save_and_advance E counted st w
                 [Checking (current_id st); ev] in
    current_id st' = current_id st + 1
    /\ ((log st' = log st ++ [Checking (current_id st);
                              NotFound (current_id st)]
         /\ db st' = db st
         /\ missing_count st' = missing_count st + 1
         /\ new_count st' = new_count st)
        \/ (exists ev0,
              log st' = log st ++ [Checking (current_id st); ev0;
                                   Save (SavedId (current_id st))]
              /\ found_outcome (current_id st) ev0
              /\ db st' = fst (save_processed_id
                                 (current_timestamp E (world st'))
                                 (current_id st) (db st))
              /\ missing_count st' = 0
              /\ new_count st' =
                 new_count st + (if is_send ev0 then 1 else 0)))).
  { intros counted w ev Hev Hc st'. unfold st'.
    rewrite save_and_advance_eq. cbn [current_id log db missing_count
                                       new_count world].
    split; [reflexivity|]. right. exists ev.
    split; [reflexivity|]. split; [exact Hev|].
    split; [now rewrite save_processed_id_eq|]. split; [reflexivity|].
    rewrite Hc. destruct counted; lia. }
  unfold loop_body.
  destruct (parse_vacancy_page E (current_id st) (world st)) as [[raw|] w1].
  2:{ eexists. split; [reflexivity|]. cbn [current_id log db missing_count
                                           new_count].
      split; [reflexivity|]. left. repeat split; reflexivity. }
  destruct (format_vacancy_deepseek E raw w1) as [[|body] w2].
  - eexists. split; [reflexivity|].
    apply (Hsave false w2 (FormatError (current_id st)));
      [now left | reflexivity].
  - destruct (PyStr.is_empty body).
    + eexists. split; [reflexivity|].
      apply (Hsave false w2 (EmptyResult (current_id st)));
        [right; now left | reflexivity].
    + rewrite choose_topic_value.
      destruct (Z.eqb_spec
                  (match_topic TOPIC_ID_MAPPING (lower_line_of body)) 0)
        as [Hz | Hnz].
      * eexists. split; [reflexivity|].
        apply (Hsave false w2 (NoTopic (current_id st)));
          [right; right; now left | reflexivity].
      * destruct (send_message E (TARGET_CHAT_ID E) body
                    (match_topic TOPIC_ID_MAPPING (lower_line_of body)) w2)
          as [ok w3].
        eexists. split; [reflexivity|].
        apply (Hsave true w3
                 (Send (current_id st)
                       (match_topic TOPIC_ID_MAPPING (lower_line_of body))
                       body ok)); [|reflexivity].
        right; right; right. eauto.
Qed.

Lemma step_shape (st st' : state) :
  step E st st' ->
  current_id st' = current_id st + 1
  /\ ((log st' = log st ++ [Checking (current_id st);
                            NotFound (current_id st)]
       /\ db st' = db st
       /\ missing_count st' = missing_count st + 1
       /\ new_count st' = new_count st)
      \/ (exists ev,
            log st' = log st ++ [Checking (current_id st); ev;
                                 Save (SavedId (current_id st))]
            /\ found_outcome (current_id st) ev
            /\ db st' = fst (save_processed_id
                               (current_timestamp E (world st'))
                               (current_id st) (db st))
            /\ missing_count st' = 0
            /\ new_count st' =
               new_count st + (if is_send ev then 1 else 0))).
Proof.
  intros [_ Hb]. destruct (loop_body_shape st) as [s [Hs H]].
  rewrite Hb in Hs. injection Hs as <-. exact H.
Qed.

(** Rows are only ever added at the end of the table, and the ids stay
    unique. *)
Lemma steps_append (st st' : state) :
  steps E st st' ->
  exists rows, db st' = db st ++ rows
               /\ (unique_ids (db st) -> unique_ids (db st')).
Proof.
  induction 1 as [st | st st1 st2 _ [rows [Hrows Huniq]] Hstep].
  - exists []. now rewrite app_nil_r.
  - destruct (step_shape st1 st2 Hstep) as [_ [[_ [Hdb _]] | [ev [_ [_ [Hdb _]]]]]].
    + exists rows. rewrite Hdb. now split.
    + exists (if has_vacancy (db st1) (current_id st1) then rows
              else rows ++ [mk_row (current_id st1)
                                   (current_timestamp E (world st2))]).
      split.
      * rewrite Hdb, save_processed_id_eq. cbn [fst].
        destruct (has_vacancy (db st1) (current_id st1));
          [exact Hrows | now rewrite Hrows, app_assoc].
      * intros Hu. rewrite Hdb. apply save_processed_id_unique. auto.
Qed.

End Shape.

(** ** What a scan leaves behind *)

Section Account.

Variables World Tag : Type.
Variable E : collaborators World Tag.

Local Abbreviation state := (scan_state World).

Lemma initial_state_fresh (d : table) (w : World) :
  fresh (initial_state d w).
Proof.
  split; [reflexivity|]. split; [reflexivity|]. intros y Hy. simpl in *.
  destruct (has_vacancy d y) eqn:H; [|reflexivity].
  apply processed_le_last in H. lia.
Qed.

(** Everything printed is about an id the cursor has passed, and the
    table holds no id from the cursor on. *)
Lemma beyond_cursor (st0 st : state) :
  fresh st0 -> steps E st0 st ->
  (forall e, In e (log st) ->
     exists x, event_id e = Some x /\ current_id st0 <= x < current_id st)
  /\ (forall y, current_id st <= y -> has_vacancy (db st) y = false).
Proof.
  intros [Hlog0 [_ Hdb0]] Hs.
  destruct (steps_effect World Tag E st0 st Hs)
    as [Hle [_ [_ [evs [Hlog [Hev [_ Hsaved]]]]]]].
  rewrite Hlog0 in Hlog. simpl in Hlog. subst evs. split; [exact Hev|].
  intros y Hy. destruct (has_vacancy (db st) y) eqn:H; [|reflexivity].
  destruct (Hsaved y H) as [H0 | Hin].
  - rewrite Hdb0 in H0 by lia. discriminate.
  - destruct (Hev _ Hin) as [x [Hx Hr]]. simpl in Hx.
    injection Hx as <-. lia.
Qed.

Lemma not_about (st0 st : state) (e : event) (x : Z) :
  fresh st0 -> steps E st0 st -> event_id e = Some x ->
  current_id st <= x -> ~ In e (log st).
Proof.
  intros Hf Hs He Hx Hin.
  destruct (proj1 (beyond_cursor st0 st Hf Hs) e Hin) as [y [Hy Hr]].
  rewrite He in Hy. injection Hy as <-. lia.
Qed.

(** Every id the cursor has passed is accounted for in exactly one way:
    its page was found and it is in the table, or it was not found and
    it is not. *)
Lemma passed_ids_accounted (st0 st : state) :
  fresh st0 -> steps E st0 st ->
  forall x, current_id st0 <= x < current_id st ->
    (is_processed (db st) x = true
     /\ In (Save (SavedId x)) (log st) /\ ~ In (NotFound x) (log st))
    \/ (is_processed (db st) x = false
        /\ In (NotFound x) (log st) /\ ~ In (Save (SavedId x)) (log st)).
Proof.
  intros Hf Hs. induction Hs as [st0 | st0 st1 st2 Hs IH Hstep].
  - intros x Hx. lia.
  - specialize (IH Hf). intros x Hx.
    pose proof (not_about st0 st1 (NotFound (current_id st1))
                  (current_id st1) Hf Hs eq_refl (Z.le_refl _)) as HnoNF.
    pose proof (not_about st0 st1 (Save (SavedId (current_id st1)))
                  (current_id st1) Hf Hs eq_refl (Z.le_refl _)) as HnoSV.
    pose proof (proj2 (beyond_cursor st0 st1 Hf Hs) (current_id st1)
                  (Z.le_refl _)) as Hnew.
    destruct (step_shape World Tag E st1 st2 Hstep)
      as [Hid [[Hlog [Hdb _]] | [ev [Hlog [Hev [Hdb _]]]]]];
      rewrite Hlog, Hdb.
    + destruct (Z.eq_dec x (current_id st1)) as [-> | Hne].
      * right. split; [exact Hnew|]. split.
        -- apply in_app_iff. right. right. now left.
        -- intros Hin. apply in_app_iff in Hin as [Hin | Hin];
             [now apply HnoSV|].
           destruct Hin as [Hin | [Hin | []]]; discriminate.
      * destruct (IH x ltac:(lia)) as [[Hp [Hsv Hnf]] | [Hp [Hnf Hsv]]].
        -- left. split; [exact Hp|]. split.
           ++ apply in_app_iff. now left.
           ++ intros Hin. apply in_app_iff in Hin as [Hin | Hin];
                [now apply Hnf|].
              destruct Hin as [Hin | [Hin | []]]; congruence.
        -- right. split; [exact Hp|]. split.
           ++ apply in_app_iff. now left.
           ++ intros Hin. apply in_app_iff in Hin as [Hin | Hin];
                [now apply Hsv|].
              destruct Hin as [Hin | [Hin | []]]; discriminate.
    + assert (HevNF : forall y, ev <> NotFound y).
      { intros y ->.
        destruct Hev as [H | [H | [H | [t [b [ok [H _]]]]]]]; discriminate. }
      assert (HevSV : forall y, ev <> Save (SavedId y)).
      { intros y ->.
        destruct Hev as [H | [H | [H | [t [b [ok [H _]]]]]]]; discriminate. }
      unfold is_processed. rewrite save_processed_id_has.
      destruct (Z.eq_dec x (current_id st1)) as [-> | Hne].
      * left. rewrite Z.eqb_refl, orb_true_r. split; [reflexivity|]. split.
        -- apply in_app_iff. right. right. right. now left.
        -- intros Hin. apply in_app_iff in Hin as [Hin | Hin];
             [now apply HnoNF|].
           destruct Hin as [Hin | [Hin | [Hin | []]]];
             [discriminate | now apply (HevNF (current_id st1))
              | discriminate].
      * assert (Hneq : (current_id st1 =? x) = false)
          by (apply Z.eqb_neq; lia).
        rewrite Hneq, orb_false_r.
        destruct (IH x ltac:(lia)) as [[Hp [Hsv Hnf]] | [Hp [Hnf Hsv]]].
        -- left. split; [exact Hp|]. split.
           ++ apply in_app_iff. now left.
           ++ intros Hin. apply in_app_iff in Hin as [Hin | Hin];
                [now apply Hnf|].
              destruct Hin as [Hin | [Hin | [Hin | []]]];
                [discriminate | now apply (HevNF x) | discriminate].
        -- right. split; [exact Hp|]. split.
           ++ apply in_app_iff. now left.
           ++ intros Hin. apply in_app_iff in Hin as [Hin | Hin];
                [now apply Hsv|].
              destruct Hin as [Hin | [Hin | [Hin | []]]];
                [discriminate | now apply (HevSV x) | congruence].
Qed.

(** The rows a run adds are rows of ids the cursor passed. *)
Lemma steps_append_range (st st' : state) :
  steps E st st' ->
  exists rows, db st' = db st ++ rows
               /\ forall r, In r rows ->
                    current_id st <= vacancy_id r < current_id st'.
Proof.
  induction 1 as [st | st st1 st2 Hs [rows [Hrows Hrange]] Hstep].
  - exists []. rewrite app_nil_r. split; [reflexivity | intros r []].
  - pose proof (proj1 (steps_effect World Tag E st st1 Hs)) as Hle.
    destruct (step_shape World Tag E st1 st2 Hstep)
      as [Hid [[_ [Hdb _]] | [ev [_ [_ [Hdb _]]]]]].
    + exists rows. rewrite Hdb. split; [exact Hrows|].
      intros r Hr. specialize (Hrange r Hr). lia.
    + rewrite Hdb, save_processed_id_eq. cbn [fst].
      destruct (has_vacancy (db st1) (current_id st1)).
      * exists rows. split; [exact Hrows|].
        intros r Hr. specialize (Hrange r Hr). lia.
      * eexists (rows ++ [_]). rewrite Hrows, app_assoc.
        split; [reflexivity|]. intros r Hr.
        apply in_app_iff in Hr as [Hr | [<- | []]].
        -- specialize (Hrange r Hr). lia.
        -- cbn [vacancy_id]. lia.
Qed.

Lemma sent_ids_app (l1 l2 : list event) :
  sent_ids (l1 ++ l2) = sent_ids l1 ++ sent_ids l2.
Proof. unfold sent_ids. apply flat_map_app. Qed.

Lemma sent_ids_In (x : Z) (l : list event) :
  In x (sent_ids l) <-> exists t b ok, In (Send x t b ok) l.
Proof.
  unfold sent_ids. rewrite in_flat_map. split.
  - intros [e [He Hx]]. destruct e; simpl in Hx; try contradiction.
    destruct Hx as [<- | []]. eauto.
  - intros [t [b [ok H]]]. exists (Send x t b ok). split; [exact H | now left].
Qed.

(** Each message sent is followed by the save of its id, and the ids of
    the messages sent grow strictly, so none occurs twice. *)
Lemma sent_then_saved (st0 st : state) :
  fresh st0 -> steps E st0 st ->
  NoDup (sent_ids (log st))
  /\ forall x, In x (sent_ids (log st)) ->
       In (Save (SavedId x)) (log st)
       /\ current_id st0 <= x < current_id st.
Proof.
  intros Hf Hs. induction Hs as [st0 | st0 st1 st2 Hs IH Hstep].
  - destruct Hf as [-> _]. split; [constructor | intros x []].
  - destruct (IH Hf) as [Hnd Hall]. clear IH.
    pose proof (proj1 (steps_effect World Tag E st0 st1 Hs)) as Hle.
    destruct (step_shape World Tag E st1 st2 Hstep)
      as [Hid [[Hlog _] | [ev [Hlog [Hev _]]]]]; rewrite Hlog, sent_ids_app.
    + cbn [sent_ids flat_map app]. rewrite app_nil_r. split; [exact Hnd|].
      intros x Hx. destruct (Hall x Hx) as [Hsv Hr].
      split; [apply in_app_iff; now left | lia].
    + assert (Hblock : sent_ids [Checking (current_id st1); ev;
                                 Save (SavedId (current_id st1))]
                       = if is_send ev then [current_id st1] else []).
      { destruct Hev as [-> | [-> | [-> | [t [b [ok [-> _]]]]]]];
          reflexivity. }
      rewrite Hblock. split.
      * destruct (is_send ev); [|now rewrite app_nil_r].
        apply NoDup_app; [exact Hnd | repeat constructor; intros [] |].
        intros x Hx [<- | []]. specialize (proj2 (Hall _ Hx)). lia.
      * intros x Hx. apply in_app_iff in Hx as [Hx | Hx].
        -- destruct (Hall x Hx) as [Hsv Hr].
           split; [apply in_app_iff; now left | lia].
        -- destruct (is_send ev); [|destruct Hx].
           destruct Hx as [<- | []]. split; [|lia].
           apply in_app_iff. right. right. right. now left.
Qed.

(** The miss counter is the number of ids just before the cursor that
    were not found. *)
Lemma trailing_misses (st0 st : state) :
  fresh st0 -> steps E st0 st ->
  0 <= missing_count st <= current_id st - current_id st0
  /\ forall i, 1 <= i <= missing_count st ->
       In (NotFound (current_id st - i)) (log st).
Proof.
  intros Hf Hs. induction Hs as [st0 | st0 st1 st2 Hs IH Hstep].
  - destruct Hf as [_ [-> _]]. split; [lia | intros i Hi; lia].
  - destruct (IH Hf) as [Hm Hall]. clear IH.
    destruct (step_shape World Tag E st1 st2 Hstep)
      as [Hid [[Hlog [_ [Hmc _]]] | [ev [Hlog [_ [_ [Hmc _]]]]]]];
      rewrite Hlog, Hmc, Hid.
    + split; [lia|]. intros i Hi. apply in_app_iff.
      destruct (Z.eq_dec i 1) as [-> | Hne].
      * right. right. left. f_equal. lia.
      * left. replace (current_id st1 + 1 - i)
          with (current_id st1 - (i - 1)) by lia.
        apply Hall. lia.
    + split; [lia | intros i Hi; lia].
Qed.

(** A page that is found resets the miss counter, whatever follows. *)
Lemma loop_body_found (st : state) (raw : string) (w1 : World) :
  parse_vacancy_page E (current_id st) (world st) = (Some raw, w1) ->
  exists st', loop_body E st = Some st' /\ missing_count st' = 0.
Proof.
  intros Hp. unfold loop_body. rewrite Hp.
  destruct (format_vacancy_deepseek E raw w1) as [[|body] w2].
  - eexists. split; [reflexivity | now rewrite save_and_advance_eq].
  - destruct (PyStr.is_empty body).
    + eexists. split; [reflexivity | now rewrite save_and_advance_eq].
    + rewrite choose_topic_value.
      destruct (match_topic TOPIC_ID_MAPPING (lower_line_of body) =? 0).
      * eexists. split; [reflexivity | now rewrite save_and_advance_eq].
      * destruct (send_message E (TARGET_CHAT_ID E) body
                    (match_topic TOPIC_ID_MAPPING (lower_line_of body)) w2)
          as [ok w3].
        eexists. split; [reflexivity | now rewrite save_and_advance_eq].
Qed.

(** A loop that returns on [fuel] made fewer than [fuel] passes. *)
Lemma check_loop_passes (fuel : nat) (st st' : state) :
  check_loop E fuel st = Returns st' ->
  current_id st' - current_id st < Z.of_nat fuel.
Proof.
  revert st. induction fuel as [|fuel IH]; intros st; [discriminate|].
  cbn [check_loop].
  destruct (missing_count st <? max_missing).
  - destruct (loop_body_shape World Tag E st) as [st1 [-> [Hid _]]].
    intros H. specialize (IH st1 H). lia.
  - intros [= <-]. lia.
Qed.

(** When no id from [N] on has a page, the loop returns, on a fuel that
    grows only with the distance of the cursor from [N]. *)
Lemma finite_site_returns (N : Z) :
  (forall x w', N <= x -> fst (parse_vacancy_page E x w') = None) ->
  forall (n : nat) (st : state),
    0 <= missing_count st <= max_missing ->
    N - current_id st <= Z.of_nat n ->
    exists st', check_loop E (n + 11) st = Returns st'.
Proof.
  intros Hfin. unfold max_missing.
  assert (Htail : forall st : state,
            0 <= missing_count st <= 10 -> N <= current_id st ->
            exists st', check_loop E 11 st = Returns st').
  { intros st Hm HN.
    destruct (misses_run World Tag E (Z.to_nat (10 - missing_count st)) st)
      as [st' [Hrun _]].
    - unfold max_missing. lia.
    - intros i w' Hi. apply Hfin. lia.
    - exists st'. apply (check_loop_more_fuel World Tag E _ 11 _ _ Hrun). lia. }
  induction n as [|n IH]; intros st Hm Hn.
  - apply Htail; [exact Hm | lia].
  - destruct (Z_le_gt_dec N (current_id st)) as [HN | HN].
    + destruct (Htail st Hm HN) as [st' Hrun]. exists st'.
      apply (check_loop_more_fuel World Tag E _ _ _ _ Hrun). lia.
    + change (S n + 11)%nat with (S (n + 11)). cbn [check_loop].
      destruct (Z.ltb_spec (missing_count st) max_missing) as [Hlt | Hge];
        [|now exists st].
      destruct (loop_body_shape World Tag E st)
        as [st1 [-> [Hid [[_ [_ [Hmc _]]] | [ev [_ [_ [_ [Hmc _]]]]]]]]];
        apply IH; unfold max_missing in *; lia.
Qed.

End Account.

(** ** Whole scans *)

(** A scan that returned is a run of passes from the initial state, left
    on the miss bound, with the closing message printed after it. *)
Lemma returned_scan {World Tag : Type} (E : collaborators World Tag)
    (fuel : nat) (d : table) (w : World) (v : py_value)
    (st : scan_state World) :
  check_new_vacancies E fuel d w = Returns (v, st) ->
  exists s,
    steps E (initial_state d w) s
    /\ missing_count s = max_missing
    /\ log st = log s ++ [Complete (new_count s)]
    /\ db st = db s
    /\ current_id st = current_id s
    /\ current_id s - current_id (initial_state d w) < Z.of_nat fuel.
Proof.
  unfold check_new_vacancies.
  destruct (check_loop E fuel (initial_state d w)) as [| |s] eqn:Hrun;
    try discriminate.
  intros [= <- <-]. exists s. cbn [log db current_id].
  pose proof (check_loop_passes World Tag E fuel _ _ Hrun) as Hp.
  pose proof (check_loop_exit_count World Tag E fuel _ _ Hrun) as Hm.
  apply check_loop_steps in Hrun as [Hs _].
  repeat split; try assumption; try reflexivity.
  apply Hm. simpl. unfold max_missing. lia.
Qed.

(** X4. A scan never removes or rewrites a row: the table it leaves is
    the table it found followed by new rows, each for an id between the
    first candidate and the cursor, and if the ids were unique they
    still are. *)
Theorem scan_only_appends :
  forall (World Tag : Type) (E : collaborators World Tag)
         (fuel : nat) (d : table) (w : World) (v : py_value)
         (st : scan_state World),
    check_new_vacancies E fuel d w = Returns (v, st) ->
    exists rows,
      db st = d ++ rows
      /\ (forall r, In r rows ->
            get_last_processed_id d + 1 <= vacancy_id r < current_id st)
      /\ (unique_ids d -> unique_ids (db st)).
Proof.
  intros World Tag E fuel d w v st H.
  destruct (returned_scan E fuel d w v st H)
    as [s [Hs [_ [_ [Hdb [Hid _]]]]]].
  destruct (steps_append_range World Tag E _ _ Hs) as [rows [Hrows Hrange]].
  destruct (steps_append World Tag E _ _ Hs) as [_ [_ Hu]].
  exists rows. rewrite Hdb, Hid. repeat split.
  - exact Hrows.
  - apply (Hrange r H0).
  - apply (Hrange r H0).
  - exact Hu.
Qed.

(** X4 on a table with one row, against a site with two more pages. *)
Lemma scan_only_appends_witness :
  exists st rows,
    check_new_vacancies
      (Sim.site [308422; 308424] [] Sim.fmt_master true) 20
      [mk_row 308421 5] 0 = Returns (PyNone, st)
    /\ db st = [mk_row 308421 5] ++ rows
    /\ List.length rows = 2%nat.
Proof.
  eexists.
  destruct (scan_only_appends Z string
              (Sim.site [308422; 308424] [] Sim.fmt_master true) 20
              [mk_row 308421 5] 0 PyNone _ ltac:(vm_compute; reflexivity))
    as [rows [Hrows _]].
  exists rows. split; [vm_compute; reflexivity|]. split; [exact Hrows|].
  simpl in Hrows. injection Hrows as <-. reflexivity.
Defined.

(** X5. A scan never lowers what [get_last_processed_id] gives, so the
    next scan starts where this one did or further on. *)
Theorem scan_never_lowers_last_id :
  forall (World Tag : Type) (E : collaborators World Tag)
         (fuel : nat) (d : table) (w : World) (v : py_value)
         (st : scan_state World),
    check_new_vacancies E fuel d w = Returns (v, st) ->
    get_last_processed_id d <= get_last_processed_id (db st)
    /\ get_last_processed_id (db st) < current_id st.
Proof.
  intros World Tag E fuel d w v st H.
  destruct (returned_scan E fuel d w v st H)
    as [s [Hs [_ [_ [Hdb [Hid _]]]]]].
  rewrite Hdb, Hid.
  destruct (steps_effect World Tag E _ _ Hs) as [Hle [_ [Hmono _]]].
  pose proof (proj2 (beyond_cursor World Tag E _ _
                       (initial_state_fresh World d w) Hs)) as Hbeyond.
  cbn [initial_state current_id db] in Hle, Hmono.
  unfold get_last_processed_id at 2 3.
  destruct (select_max (db s)) as [m|] eqn:Hsel.
  - pose proof (select_max_member _ _ Hsel) as Hm. split.
    + unfold get_last_processed_id.
      destruct (select_max d) as [m0|] eqn:Hm0.
      * apply select_max_member in Hm0. apply Hmono in Hm0.
        destruct (select_max_bound _ _ Hm0) as [m' [Hm' Hle']].
        rewrite Hsel in Hm'. injection Hm' as <-. exact Hle'.
      * destruct (steps_effect World Tag E _ _ Hs)
          as [_ [_ [_ [evs [Hlog [Hev [_ Hsaved]]]]]]].
        destruct (Hsaved m Hm) as [H0 | Hin].
        -- apply select_max_empty in Hm0. subst d. discriminate.
        -- destruct (Hev _ Hin) as [x [Hx Hr]]. simpl in Hx.
           injection Hx as <-. cbn [initial_state current_id] in Hr.
           unfold get_last_processed_id in Hr. rewrite Hm0 in Hr. lia.
    + destruct (Z_lt_ge_dec m (current_id s)) as [Hlt | Hge]; [exact Hlt|].
      rewrite Hbeyond in Hm by lia. discriminate.
  - apply select_max_empty in Hsel.
    destruct (steps_append World Tag E _ _ Hs) as [rows [Hrows _]].
    cbn [initial_state db] in Hrows. rewrite Hsel in Hrows.
    destruct d; [|discriminate]. split; [reflexivity|].
    change (get_last_processed_id []) with fallback_last_id in Hle.
    change (match @None Z with Some m => m | None => fallback_last_id end)
      with fallback_last_id. lia.
Qed.

(** X5 on a table with one row, against a site with two more pages. *)
Lemma scan_never_lowers_last_id_witness :
  exists st,
    check_new_vacancies
      (Sim.site [308422; 308424] [] Sim.fmt_master true) 20
      [mk_row 308421 5] 0 = Returns (PyNone, st)
    /\ 308421 <= get_last_processed_id (db st).
Proof.
  eexists. split; [vm_compute; reflexivity|].
  apply (proj1 (scan_never_lowers_last_id Z string
                  (Sim.site [308422; 308424] [] Sim.fmt_master true) 20
                  [mk_row 308421 5] 0 PyNone _
                  ltac:(vm_compute; reflexivity))).
Defined.

Lemma In_log_complete (e : event) (l : list event) (n : Z) :
  (forall m, e <> Complete m) -> In e (l ++ [Complete n]) <-> In e l.
Proof.
  intros H. rewrite in_app_iff. split; [|now left].
  intros [Hin | [Heq | []]]; [exact Hin|]. symmetry in Heq.
  now apply H in Heq.
Qed.

(** X6. The table after a scan: an id is in it exactly when it was in
    it before, or the scan passed it and did not find it absent.  So
    every page that was found is recorded, whatever the formatter, the
    classifier and the channel did with it, and no absent id is. *)
Theorem table_after_scan :
  forall (World Tag : Type) (E : collaborators World Tag)
         (fuel : nat) (d : table) (w : World) (v : py_value)
         (st : scan_state World),
    check_new_vacancies E fuel d w = Returns (v, st) ->
    forall x,
      is_processed (db st) x = true <->
      is_processed d x = true
      \/ (get_last_processed_id d + 1 <= x < current_id st
          /\ ~ In (NotFound x) (log st)).
Proof.
  intros World Tag E fuel d w v st H x.
  destruct (returned_scan E fuel d w v st H)
    as [s [Hs [_ [Hlog [Hdb [Hid _]]]]]].
  pose proof (initial_state_fresh World d w) as Hf.
  pose proof (passed_ids_accounted World Tag E _ _ Hf Hs x) as Hacc.
  pose proof (proj2 (beyond_cursor World Tag E _ _ Hf Hs) x) as Hbeyond.
  destruct (steps_effect World Tag E _ _ Hs) as [_ [_ [Hmono _]]].
  cbn [initial_state current_id db] in Hacc, Hmono.
  rewrite Hdb, Hid, Hlog.
  rewrite (In_log_complete (NotFound x)) by discriminate.
  unfold is_processed in *. split.
  - intros Hp. destruct (has_vacancy d x) eqn:Hd; [now left | right].
    destruct (Z_lt_ge_dec x (current_id s)) as [Hlt | Hge].
    + destruct (Z_le_gt_dec (get_last_processed_id d + 1) x) as [Hle | Hgt].
      * split; [lia|].
        destruct (Hacc ltac:(lia)) as [[_ [_ Hnf]] | [Hnp _]];
          [exact Hnf | congruence].
      * pose proof (steps_append_range World Tag E _ _ Hs)
          as [rows [Hrows Hrange]].
        cbn [initial_state current_id db] in Hrows, Hrange.
        rewrite Hrows in Hp. unfold has_vacancy in Hp, Hd.
        rewrite existsb_app, Hd in Hp.
        apply existsb_exists in Hp as [r [Hr Heq]].
        apply Z.eqb_eq in Heq. specialize (Hrange r Hr). lia.
    + rewrite Hbeyond in Hp by lia. discriminate.
  - intros [Hd | [Hr Hnf]]; [now apply Hmono|].
    destruct (Hacc Hr) as [[Hp _] | [_ [Hin _]]]; [exact Hp | contradiction].
Qed.

(** X6 on a scan that finds 308422, misses 308423 and finds 308424. *)
Lemma table_after_scan_witness :
  exists st,
    check_new_vacancies
      (Sim.site [308422; 308424] [] Sim.fmt_master true) 20
      [mk_row 308421 5] 0 = Returns (PyNone, st)
    /\ (is_processed (db st) 308424 = true <->
        is_processed [mk_row 308421 5] 308424 = true
        \/ (get_last_processed_id [mk_row 308421 5] + 1 <= 308424
            < current_id st
            /\ ~ In (NotFound 308424) (log st))).
Proof.
  eexists. split; [vm_compute; reflexivity|].
  apply (table_after_scan Z string
           (Sim.site [308422; 308424] [] Sim.fmt_master true) 20
           [mk_row 308421 5] 0 PyNone _ ltac:(vm_compute; reflexivity)).
Defined.

(** X7. No vacancy is sent twice: within a scan every id is sent at
    most once; an id that was sent was not in the table before and is
    in it afterwards; and a later scan that starts from the table this
    one left, against whatever outside, sends none of these ids again. *)
Theorem delivered_at_most_once :
  forall (World Tag : Type) (E : collaborators World Tag)
         (fuel : nat) (d : table) (w : World) (v : py_value)
         (st : scan_state World),
    check_new_vacancies E fuel d w = Returns (v, st) ->
    NoDup (sent_ids (log st))
    /\ (forall x, In x (sent_ids (log st)) ->
          is_processed d x = false /\ is_processed (db st) x = true)
    /\ (forall (World2 Tag2 : Type) (E2 : collaborators World2 Tag2)
               (fuel2 : nat) (w2 : World2) (v2 : py_value)
               (st2 : scan_state World2) (x : Z),
          check_new_vacancies E2 fuel2 (db st) w2 = Returns (v2, st2) ->
          In x (sent_ids (log st)) -> ~ In x (sent_ids (log st2))).
Proof.
  intros World Tag E fuel d w v st H.
  destruct (returned_scan E fuel d w v st H)
    as [s [Hs [_ [Hlog [Hdb [Hid _]]]]]].
  pose proof (initial_state_fresh World d w) as Hf.
  destruct (sent_then_saved World Tag E _ _ Hf Hs) as [Hnd Hsent].
  assert (Hids : sent_ids (log st) = sent_ids (log s)).
  { rewrite Hlog, sent_ids_app. cbn. apply app_nil_r. }
  assert (Hin : forall x, In x (sent_ids (log st)) ->
                  is_processed d x = false /\ is_processed (db st) x = true).
  { intros x Hx. rewrite Hids in Hx. destruct (Hsent x Hx) as [Hsv Hr].
    cbn [initial_state current_id] in Hr. split.
    - destruct (is_processed d x) eqn:Hd; [|reflexivity].
      apply processed_le_last in Hd. lia.
    - rewrite Hdb.
      destruct (passed_ids_accounted World Tag E _ _ Hf Hs x Hr)
        as [[Hp _] | [_ [_ Hno]]]; [exact Hp | contradiction]. }
  split; [now rewrite Hids|]. split; [exact Hin|].
  intros World2 Tag2 E2 fuel2 w2 v2 st2 x H2 Hx Hx2.
  destruct (returned_scan E2 fuel2 (db st) w2 v2 st2 H2)
    as [s2 [Hs2 [_ [Hlog2 _]]]].
  pose proof (processed_not_mentioned World2 Tag2 E2 (db st) w2 x s2
                (proj2 (Hin x Hx)) Hs2) as Hnone.
  rewrite Hlog2, sent_ids_app in Hx2. cbn in Hx2. rewrite app_nil_r in Hx2.
  apply sent_ids_In in Hx2 as [t [b [ok Hsend]]].
  rewrite Forall_forall in Hnone. specialize (Hnone _ Hsend).
  unfold mentions in Hnone. cbn in Hnone. rewrite Z.eqb_refl in Hnone.
  discriminate.
Qed.

(** X7 on two scans in a row against the same site. *)
Lemma delivered_at_most_once_witness :
  exists st,
    check_new_vacancies
      (Sim.site [308421; 308422] [] Sim.fmt_master true) 20 [] 0
    = Returns (PyNone, st)
    /\ sent_ids (log st) = [308421; 308422]
    /\ NoDup (sent_ids (log st)).
Proof.
  eexists. split; [vm_compute; reflexivity|]. split; [reflexivity|].
  apply (proj1 (delivered_at_most_once Z string
                  (Sim.site [308421; 308422] [] Sim.fmt_master true) 20
                  [] 0 PyNone _ ltac:(vm_compute; reflexivity))).
Defined.

(** X8. The scan returns whenever the site runs out of pages: if no id
    from [N] on has a page, the scan returns within the distance from
    the first candidate to [N] plus eleven tests of the loop condition,
    and its cursor ends at most ten ids beyond the larger of [N] and the
    first candidate. *)
Theorem finite_site_scan_returns :
  forall (World Tag : Type) (E : collaborators World Tag)
         (d : table) (w : World) (N : Z),
    (forall x w', N <= x -> fst (parse_vacancy_page E x w') = None) ->
    exists st,
      check_new_vacancies E
        (Z.to_nat (N - (get_last_processed_id d + 1)) + 11) d w
      = Returns (PyNone, st)
      /\ current_id st <= Z.max N (get_last_processed_id d + 1) + 10.
Proof.
  intros World Tag E d w N Hfin.
  destruct (finite_site_returns World Tag E N Hfin
              (Z.to_nat (N - (get_last_processed_id d + 1)))
              (initial_state d w)) as [st' Hrun].
  - simpl. unfold max_missing. lia.
  - simpl. lia.
  - pose proof (check_loop_passes World Tag E _ _ _ Hrun) as Hp.
    unfold check_new_vacancies. rewrite Hrun.
    eexists. split; [reflexivity|]. cbn [current_id initial_state] in *. lia.
Qed.

(** ** The address of a vacancy *)

Lemma to_int_not_nil (z : Z) :
  Z.to_int z <> Decimal.Pos Decimal.Nil
  /\ Z.to_int z <> Decimal.Neg Decimal.Nil.
Proof.
  destruct z as [|p|p]; simpl; split; try discriminate;
    intros [= H]; exact (DecimalPos.Unsigned.to_uint_nonnil p H).
Qed.

(** [str] can be read back, so it gives different texts for different
    integers. *)
Lemma str_read_back (z : Z) :
  NilZero.int_of_string (PyStr.str z) = Some (Z.to_int z).
Proof.
  unfold PyStr.str. destruct (to_int_not_nil z) as [H1 H2].
  now apply NilZero.isi.
Qed.

Lemma str_inj (x y : Z) : PyStr.str x = PyStr.str y -> x = y.
Proof.
  intros H. apply DecimalZ.to_int_inj.
  pose proof (str_read_back x) as Hx. rewrite H, str_read_back in Hx.
  now injection Hx.
Qed.

Lemma append_cancel (a b c : string) :
  (a ++ b)%string = (a ++ c)%string -> b = c.
Proof.
  induction a as [|x a IH]; simpl; [auto|]. intros [= H]. now apply IH.
Qed.


(** X8 against a site whose last page is 308425. *)
Lemma finite_site_scan_returns_witness :
  exists st,
    check_new_vacancies
      (Sim.site [308421; 308423; 308425] [] Sim.fmt_master true)
      (Z.to_nat (308426 - (get_last_processed_id [] + 1)) + 11) [] 0
    = Returns (PyNone, st)
    /\ current_id st <= 308436.
Proof.
  apply (finite_site_scan_returns Z string
           (Sim.site [308421; 308423; 308425] [] Sim.fmt_master true)
           [] 0 308426).
  intros x w' Hx. unfold parse_vacancy_page.
  cbn [Sim.site requests_get VACANCY_BASE_URL].
  assert (Huniq : forall y, x <> y ->
            String.eqb (Sim.base_url ++ PyStr.str x) (Sim.url_of y) = false).
  { intros y Hy. apply String.eqb_neq. intros Heq. apply Hy.
    unfold Sim.url_of in Heq. apply append_cancel in Heq.
    now apply str_inj. }
  unfold Sim.serves. cbn [existsb].
  rewrite !Huniq by lia. reflexivity.
Defined.

(** ** How a scan can end *)

(** X11. While every id has a page the scan does not end, however the
    formatter and the channel answer: the miss bound is its only way
    out. *)
Theorem endless_site_never_returns :
  forall (World Tag : Type) (E : collaborators World Tag),
    (forall x w', fst (parse_vacancy_page E x w') <> None) ->
    forall (fuel : nat) (d : table) (w : World),
      check_new_vacancies E fuel d w = OutOfFuel.
Proof.
  intros World Tag E Hall fuel d w. unfold check_new_vacancies.
  assert (H : forall st : scan_state World,
            missing_count st < max_missing ->
            check_loop E fuel st = OutOfFuel).
  { induction fuel as [|fuel IH]; intros st Hm; [reflexivity|].
    cbn [check_loop].
    destruct (Z.ltb_spec (missing_count st) max_missing); [|lia].
    destruct (parse_vacancy_page E (current_id st) (world st))
      as [[raw|] w1] eqn:Hp.
    - destruct (loop_body_found World Tag E st raw w1 Hp) as [st' [-> Hz]].
      apply IH. rewrite Hz. unfold max_missing. lia.
    - exfalso. apply (Hall (current_id st) (world st)). now rewrite Hp. }
  rewrite H; [reflexivity|]. simpl. unfold max_missing. lia.
Qed.

(** X11 against a site that has a page for every id, with a formatter
    that always fails. *)
Lemma endless_site_never_returns_witness :
  check_new_vacancies (Sim.endless_site Sim.fmt_fails true) 40 [] 0
  = OutOfFuel.
Proof.
  apply (endless_site_never_returns Z string
           (Sim.endless_site Sim.fmt_fails true)).
  intros x w'. discriminate.
Defined.

(** X12. A scan that returned looked at ten ids or more, the last ten
    were all absent and are not in the table, and the highest id of the
    table lies before them: the next scan starts at the first id of
    this closing streak or earlier, so every id of the streak is still
    ahead of it. *)
Theorem scan_ends_on_ten_misses :
  forall (World Tag : Type) (E : collaborators World Tag)
         (fuel : nat) (d : table) (w : World) (v : py_value)
         (st : scan_state World),
    check_new_vacancies E fuel d w = Returns (v, st) ->
    get_last_processed_id d + 11 <= current_id st
    /\ (forall i, 1 <= i <= 10 ->
          In (NotFound (current_id st - i)) (log st)
          /\ is_processed (db st) (current_id st - i) = false)
    /\ get_last_processed_id (db st) + 1 <= current_id st - 10.
Proof.
  intros World Tag E fuel d w v st H.
  destruct (returned_scan E fuel d w v st H)
    as [s [Hs [Hm [Hlog [Hdb [Hid _]]]]]].
  pose proof (initial_state_fresh World d w) as Hf.
  destruct (trailing_misses World Tag E _ _ Hf Hs) as [Hrange Hmiss].
  rewrite Hm in Hrange, Hmiss. unfold max_missing in *.
  cbn [initial_state current_id] in Hrange.
  assert (Hlast : forall i, 1 <= i <= 10 ->
            In (NotFound (current_id st - i)) (log st)
            /\ is_processed (db st) (current_id st - i) = false).
  { intros i Hi. rewrite Hlog, Hdb, Hid. split.
    - apply in_app_iff. left. now apply Hmiss.
    - destruct (passed_ids_accounted World Tag E _ _ Hf Hs
                  (current_id s - i)) as [[_ [_ Hno]] | [Hp _]].
      + cbn [initial_state current_id]. lia.
      + exfalso. apply Hno. now apply Hmiss.
      + exact Hp. }
  split; [rewrite Hid; lia|]. split; [exact Hlast|].
  unfold get_last_processed_id at 1.
  destruct (select_max (db st)) as [m|] eqn:Hsel.
  - pose proof (select_max_member _ _ Hsel) as Hin.
    destruct (Z_le_gt_dec (m + 1) (current_id st - 10)) as [Hle | Hgt];
      [exact Hle | exfalso].
    destruct (Z_lt_ge_dec m (current_id st)) as [Hlt | Hge].
    + destruct (Hlast (current_id st - m) ltac:(lia)) as [_ Hnp].
      replace (current_id st - (current_id st - m)) with m in Hnp by lia.
      unfold is_processed in Hnp. congruence.
    + rewrite Hdb, Hid in *.
      rewrite (proj2 (beyond_cursor World Tag E _ _ Hf Hs) m) in Hin by lia.
      discriminate.
  - apply select_max_empty in Hsel. rewrite Hdb in Hsel.
    destruct (steps_append World Tag E _ _ Hs) as [rows [Hrows _]].
    cbn [initial_state db] in Hrows. rewrite Hsel in Hrows.
    destruct d; [|discriminate].
    change (get_last_processed_id []) with fallback_last_id in Hrange.
    rewrite Hid. lia.
Qed.

(** X12 on a scan that finds 308422 and 308424. *)
Lemma scan_ends_on_ten_misses_witness :
  exists st,
    check_new_vacancies
      (Sim.site [308422; 308424] [] Sim.fmt_master true) 20
      [mk_row 308421 5] 0 = Returns (PyNone, st)
    /\ get_last_processed_id (db st) + 1 <= current_id st - 10.
Proof.
  eexists. split; [vm_compute; reflexivity|].
  apply (proj2 (proj2 (scan_ends_on_ten_misses Z string
                  (Sim.site [308422; 308424] [] Sim.fmt_master true) 20
                  [mk_row 308421 5] 0 PyNone _
                  ltac:(vm_compute; reflexivity)))).
Defined.

(** ** The formatter *)

(** X14. What [format_vacancy_deepseek] gives: one request and nothing
    else done to the outside; a text only for an answer with status 200
    whose content decodes, and then the content without the white space
    around it, so a text that is returned never begins or ends with
    white space and a blank content comes back as the empty text; in
    every other case the call raises. *)
Theorem format_vacancy_deepseek_result :
  forall (World Tag : Type) (E : collaborators World Tag)
         (raw : string) (w : World),
    snd (format_vacancy_deepseek E raw w)
    = snd (deepseek_post E (DEEPSEEK_API_KEY E) raw w)
    /\ (forall formatted w',
          format_vacancy_deepseek E raw w = (FormatReturned formatted, w') <->
          exists resp content,
            deepseek_post E (DEEPSEEK_API_KEY E) raw w = (Some resp, w')
            /\ status_code resp = 200
            /\ response_content E (text resp) = Some content
            /\ formatted = PyStr.strip content)
    /\ (forall formatted w',
          format_vacancy_deepseek E raw w = (FormatReturned formatted, w') ->
          PyStr.strip formatted = formatted
          /\ PyStr.lstrip formatted = formatted
          /\ PyStr.rstrip formatted = formatted).
Proof.
  intros World Tag E raw w.
  assert (Hiff : forall formatted w',
    format_vacancy_deepseek E raw w = (FormatReturned formatted, w') <->
    exists resp content,
      deepseek_post E (DEEPSEEK_API_KEY E) raw w = (Some resp, w')
      /\ status_code resp = 200
      /\ response_content E (text resp) = Some content
      /\ formatted = PyStr.strip content).
  { intros formatted w'. unfold format_vacancy_deepseek. split.
    - destruct (deepseek_post E (DEEPSEEK_API_KEY E) raw w)
        as [[resp|] w1]; [|discriminate].
      destruct (Z.eqb_spec (status_code resp) 200) as [Hs | Hs];
        [|discriminate].
      destruct (response_content E (text resp)) as [c|] eqn:Hc;
        [|discriminate].
      intros [= <- <-]. exists resp, c.
      repeat split; try assumption; reflexivity.
    - intros [resp [c [-> [Hs [-> ->]]]]]. rewrite Hs. reflexivity. }
  split; [|split; [exact Hiff|]].
  - unfold format_vacancy_deepseek.
    destruct (deepseek_post E (DEEPSEEK_API_KEY E) raw w)
      as [[resp|] w1]; [|reflexivity].
    destruct (status_code resp =? 200); [|reflexivity].
    now destruct (response_content E (text resp)).
  - intros formatted w' H. apply Hiff in H as [resp [c [_ [_ [_ ->]]]]].
    split; [apply PyStrFacts.strip_idempotent|].
    unfold PyStr.strip.
    destruct (PyStrFacts.lstrip_head_cases c) as [-> | [a [r [-> Ha]]]];
      [split; reflexivity|].
    rewrite (PyStrFacts.rstrip_cons_keep a r Ha). split.
    + cbn [PyStr.lstrip]. now rewrite Ha.
    + rewrite <- (PyStrFacts.rstrip_cons_keep a r Ha).
      apply PyStrFacts.rstrip_idempotent.
Qed.

(** ** More on the classifier *)

Section ClassifierMore.
Import PyStr PyStrFacts.

Lemma lower_char_newline (c : ascii) :
  Ascii.eqb (lower_char c) newline = Ascii.eqb c newline.
Proof. destruct c as [[] [] [] [] [] [] [] []]; reflexivity. Qed.

Lemma lower_char_idempotent (c : ascii) :
  lower_char (lower_char c) = lower_char c.
Proof. destruct c as [[] [] [] [] [] [] [] []]; reflexivity. Qed.

Lemma lower_idempotent (s : string) : lower (lower s) = lower s.
Proof.
  induction s as [|c s IH]; simpl; [reflexivity|].
  now rewrite lower_char_idempotent, IH.
Qed.

Lemma lower_first_line (s : string) :
  first_line (lower s) = lower (first_line s).
Proof.
  unfold first_line. induction s as [|c s IH]; simpl; [reflexivity|].
  rewrite lower_char_newline. destruct (Ascii.eqb c newline); [reflexivity|].
  destruct (break_line s) as [h t]. destruct (break_line (lower s)) as [h' t'].
  simpl in *. now rewrite IH.
Qed.

(** The line that is matched depends on the text only through its
    lower-cased form. *)
Lemma lower_line_of_lower (s : string) :
  lower_line_of s = strip (first_line (strip (lower s))).
Proof.
  unfold lower_line_of.
  now rewrite lower_strip, <- lower_first_line, lower_strip.
Qed.

(** A text without a newline is its own first line. *)
Lemma first_line_whole (s : string) :
  snd (break_line s) = None -> first_line s = s.
Proof.
  unfold first_line. induction s as [|c s IH]; simpl; [reflexivity|].
  destruct (Ascii.eqb c newline); [discriminate|].
  destruct (break_line s) as [h t]. simpl in *. intros H. now rewrite IH.
Qed.

Lemma no_newline_app (a b : string) :
  snd (break_line (a ++ b)) = None <->
  snd (break_line a) = None /\ snd (break_line b) = None.
Proof.
  induction a as [|c a IH]; simpl.
  - tauto.
  - destruct (Ascii.eqb c newline).
    + split; [discriminate | intros [H _]; discriminate].
    + destruct (break_line (a ++ b)) as [h t].
      destruct (break_line a) as [h' t']. simpl in *. exact IH.
Qed.

Lemma first_line_stop (a m : string) :
  snd (break_line a) = None ->
  first_line (a ++ String newline m) = a.
Proof.
  unfold first_line. induction a as [|c a IH]; simpl.
  - intros _. reflexivity.
  - destruct (Ascii.eqb c newline); [discriminate|].
    destruct (break_line a) as [h t].
    destruct (break_line (a ++ String newline m)) as [h' t'].
    simpl in *. intros H. now rewrite IH.
Qed.

Lemma lstrip_app_keep (a b c : string) (x : ascii) :
  lstrip a = String x c -> lstrip (a ++ b) = (lstrip a ++ b)%string.
Proof.
  induction a as [|y a IH]; simpl; [discriminate|].
  destruct (isspace y); [exact IH | reflexivity].
Qed.

Lemma rstrip_app_blank (a b : string) :
  rstrip b = "" -> rstrip (a ++ b) = rstrip a.
Proof.
  intros Hb. induction a as [|c a IH]; simpl; [exact Hb | now rewrite IH].
Qed.

(** The stripped form of a line that starts with a character that is
    not white space. *)
Lemma strip_started (x : ascii) (r : string) :
  isspace x = false ->
  strip (String x r) = rstrip (String x r)
  /\ strip (rstrip (String x r)) = rstrip (String x r).
Proof.
  intros Hx. unfold strip. cbn [lstrip]. rewrite Hx. split; [reflexivity|].
  rewrite (rstrip_cons_keep x r Hx). cbn [lstrip]. rewrite Hx.
  rewrite <- (rstrip_cons_keep x r Hx). apply rstrip_idempotent.
Qed.

End ClassifierMore.

(** X15. The classifier does not look at the case of letters: two texts
    that agree once lower-cased get the same topic, and so does a text
    and its lower-cased form. *)
Theorem choose_topic_ignores_case :
  forall a b : string,
    PyStr.lower a = PyStr.lower b ->
    choose_topic a = choose_topic b
    /\ choose_topic (PyStr.lower a) = choose_topic a.
Proof.
  intros a b H. rewrite !choose_topic_value, !lower_line_of_lower.
  rewrite lower_idempotent, H. split; reflexivity.
Qed.

(** X15 on two spellings of one title. *)
Lemma choose_topic_ignores_case_witness :
  choose_topic "CHIEF Engineer on LNG carrier"
  = choose_topic "chief ENGINEER on lng Carrier".
Proof.
  exact (proj1 (choose_topic_ignores_case
                  "CHIEF Engineer on LNG carrier"
                  "chief ENGINEER on lng Carrier" eq_refl)).
Defined.

(** X16. Only the first line decides the topic: whatever follows the
    first newline, a role named in the body included, changes nothing,
    provided the first line is not blank. *)
Theorem choose_topic_first_line_only :
  forall line rest : string,
    snd (PyStr.break_line line) = None ->
    PyStr.strip line <> "" ->
    choose_topic (line ++ nl ++ rest) = choose_topic line.
Proof.
  intros line rest Hnn Hnb. rewrite !choose_topic_value.
  unfold lower_line_of.
  enough (Hsame : PyStr.strip (first_line (PyStr.strip (line ++ nl ++ rest)))
                  = PyStr.strip (first_line (PyStr.strip line)))
    by now rewrite Hsame.
  destruct (PyStrFacts.lstrip_head_cases line) as [Hl | [x [r [Hl Hx]]]].
  { exfalso. apply Hnb. unfold PyStr.strip. now rewrite Hl. }
  assert (HnnL : snd (PyStr.break_line (String x r)) = None).
  { destruct (PyStrFacts.lstrip_suffix line) as [p Hp]. rewrite Hl in Hp.
    rewrite Hp in Hnn. now apply no_newline_app in Hnn. }
  assert (HnnR : snd (PyStr.break_line (PyStr.rstrip (String x r))) = None).
  { destruct (PyStrFacts.rstrip_prefix (String x r)) as [q Hq].
    rewrite Hq in HnnL. now apply no_newline_app in HnnL. }
  destruct (strip_started x r Hx) as [Hs1 Hs2].
  assert (Hright : PyStr.strip (first_line (PyStr.strip line))
                   = PyStr.rstrip (String x r)).
  { unfold PyStr.strip at 2. rewrite Hl.
    rewrite (first_line_whole _ HnnR). exact Hs2. }
  rewrite Hright. unfold PyStr.strip at 2.
  rewrite (lstrip_app_keep line (nl ++ rest) r x Hl), Hl.
  destruct (PyStr.rstrip (nl ++ rest)) as [|y t] eqn:Hrest.
  - rewrite (rstrip_app_blank _ _ Hrest).
    rewrite (first_line_whole _ HnnR). exact Hs2.
  - rewrite PyStrFacts.rstrip_app_keep by (rewrite Hrest; discriminate).
    rewrite Hrest.
    assert (Hy : y = PyStr.newline).
    { destruct (PyStrFacts.rstrip_prefix (nl ++ rest)) as [q Hq].
      rewrite Hrest in Hq. unfold nl in Hq. simpl in Hq. now injection Hq. }
    subst y. rewrite (first_line_stop _ t HnnL). exact Hs1.
Qed.

(** X16 on a cook's vacancy whose body names a master. *)
Lemma choose_topic_first_line_only_witness :
  choose_topic ("Cook on Tanker" ++ nl ++ "Report to the Master.")
  = choose_topic "Cook on Tanker"
  /\ choose_topic "Cook on Tanker" = Some 98.
Proof.
  split; [|reflexivity].
  apply choose_topic_first_line_only; [reflexivity | discriminate].
Defined.

(** ** Holes *)

(** A scan prints nothing about an id below its first candidate. *)
Lemma below_start_not_mentioned {World Tag : Type}
    (E : collaborators World Tag) (d : table) (w : World) (x : Z)
    (st : scan_state World) :
  x <= get_last_processed_id d ->
  steps E (initial_state d w) st ->
  Forall (fun e => mentions x e = false) (log st).
Proof.
  intros Hx Hs.
  destruct (steps_effect World Tag E _ _ Hs) as [_ [_ [_ [evs [Hlog [Hev _]]]]]].
  simpl in Hlog. rewrite Hlog. apply Forall_forall. intros e He.
  destruct (Hev e He) as [y [Hy Hr]]. unfold mentions. rewrite Hy.
  cbn [initial_state current_id] in Hr. apply Z.eqb_neq. lia.
Qed.

(** X18. An id that was found absent while a higher id was saved in the
    same scan is a hole for good: it is not in the table, yet no later
    scan that starts from this table, against whatever outside, ever
    looks at it again. *)
Theorem hole_is_never_rechecked :
  forall (World Tag : Type) (E : collaborators World Tag)
         (fuel : nat) (d : table) (w : World) (v : py_value)
         (st : scan_state World) (x y : Z),
    check_new_vacancies E fuel d w = Returns (v, st) ->
    In (NotFound x) (log st) ->
    x < y -> is_processed (db st) y = true ->
    is_processed (db st) x = false
    /\ forall (World2 Tag2 : Type) (E2 : collaborators World2 Tag2)
              (w2 : World2) (s2 : scan_state World2),
         steps E2 (initial_state (db st) w2) s2 ->
         Forall (fun e => mentions x e = false) (log s2).
Proof.
  intros World Tag E fuel d w v st x y H Hnf Hlt Hy.
  destruct (returned_scan E fuel d w v st H)
    as [s [Hs [_ [Hlog [Hdb [Hid _]]]]]].
  pose proof (initial_state_fresh World d w) as Hf.
  rewrite Hlog in Hnf. apply In_log_complete in Hnf; [|discriminate].
  split.
  - destruct (proj1 (beyond_cursor World Tag E _ _ Hf Hs) _ Hnf)
      as [z [Hz Hr]]. simpl in Hz. injection Hz as <-.
    rewrite Hdb.
    destruct (passed_ids_accounted World Tag E _ _ Hf Hs x Hr)
      as [[_ [_ Hno]] | [Hp _]]; [contradiction | exact Hp].
  - intros World2 Tag2 E2 w2 s2 Hs2.
    apply (below_start_not_mentioned E2 (db st) w2 x s2); [|exact Hs2].
    apply processed_le_last in Hy. lia.
Qed.

(** X18 on a scan that finds 308422, misses 308423 and finds 308424:
    the next scan starts at 308425. *)
Lemma hole_is_never_rechecked_witness :
  exists st,
    check_new_vacancies
      (Sim.site [308422; 308424] [] Sim.fmt_master true) 20
      [mk_row 308421 5] 0 = Returns (PyNone, st)
    /\ is_processed (db st) 308423 = false
    /\ current_id (initial_state (db st) 0) = 308425.
Proof.
  eexists. split; [vm_compute; reflexivity|]. split; [|reflexivity].
  apply (proj1 (hole_is_never_rechecked Z string
                  (Sim.site [308422; 308424] [] Sim.fmt_master true) 20
                  [mk_row 308421 5] 0 PyNone _ 308423 308424
                  ltac:(vm_compute; reflexivity)
                  ltac:(vm_compute; tauto)
                  ltac:(lia) ltac:(reflexivity))).
Defined.

(** ** Absent ids *)



